(** * H2MOR: the damped Gauss-Newton solver of [mor/opt/gn.py]

    A shallow embedding of [lnsrch_armijo] (backtracking line search) and
    [gn] (Gauss-Newton outer iteration), and the properties of the design
    document checked against them.

    Numbers.  The Python code computes with numpy floats.  The embedding is
    written over an interface [Scalar] of the operations the code uses, and
    instantiated at IEEE binary64 ([PrimFloat]: the numbers Python really
    has, with rounding, underflow, signed zeros, infinities and NaN).
    Properties that only follow the control flow are proved for every
    instance of the interface; properties of the numbers are proved for
    binary64, from the specification of the floating-point operations.

    Arrays.  A vector is a list of scalars, a matrix the list of its
    columns.  [np.inner], [x + t * p], [-g] and [F.T.dot(r)] are written
    out; [np.linalg.norm] and [scipy.linalg.lstsq] are parameters of [gn].
    The direction solver ([scipy.linalg.lstsq] or the argument [gnsolver])
    returns a direction and singular values or raises (scipy raises
    [ValueError] on a system with a non-finite entry, [LinAlgError] when
    the decomposition does not converge); [gn] catches nothing, so the
    exception ends the call.

    Callables.  The objective and the trajectory handed to the line search
    return a value or raise; the [try ... except BadStep] of the line
    search catches [BadStep] and lets any other exception through.  The
    residual [f] and the Jacobian [F] of [gn] are kept where they return:
    [gn] has no handler around them, an exception of theirs ends the call
    at that point, and the properties below speak of the calls in which
    they return.

    Effects.  [gn] calls its arguments (residual, Jacobian, direction
    solver, line search), prints and dumps diagnostics, and raises
    exceptions.  These are kept in a writer/error monad [M]: a computation
    yields the list of events in program order and either a value or the
    exception raised.  Of the output, the dump of a non-finite direction
    and the rows of the verbose table are events; the table header and the
    one-line messages are not kept.  [fdcheck] is [False], its default: the
    finite-difference check is a module of its own and only warns.  *)

From Stdlib Require Import ZArith QArith List Bool Lia.
From Stdlib Require Import Floats Uint63.
Import ListNotations.

Set Implicit Arguments.

(** ** Scalars *)

Class Scalar (R : Type) : Type := {
  szero : R;
  sone : R;
  sadd : R -> R -> R;
  smul : R -> R -> R;
  sdiv : R -> R -> R;
  sopp : R -> R;
  sltb : R -> R -> bool;      (* Python [a < b]  *)
  sleb : R -> R -> bool;      (* Python [a <= b] *)
  sfinite : R -> bool;        (* [np.isfinite]   *)
  slit : Q -> R               (* a decimal literal of the source *)
}.

(** Python's [a > b] and [a >= b] on floats are [b < a] and [b <= a]. *)
Definition sgtb {R} `{Scalar R} (a b : R) : bool := sltb b a.
Definition sgeb {R} `{Scalar R} (a b : R) : bool := sleb b a.

(** The builtin [max(a, b)]: the first argument unless the second is
    strictly greater. *)
Definition pymax {R} `{Scalar R} (a b : R) : R := if sgtb b a then b else a.

Definition float_of_Z (z : Z) : float :=
  if (z <? 0)%Z then PrimFloat.opp (PrimFloat.of_uint63 (Uint63.of_Z (- z)))
  else PrimFloat.of_uint63 (Uint63.of_Z z).

(** A decimal literal is the correctly rounded quotient of its numerator
    and denominator (both exact in binary64 for the literals of gn.py). *)
Definition float_of_Q (q : Q) : float :=
  PrimFloat.div (float_of_Z (Qnum q)) (float_of_Z (Zpos (Qden q))).

#[export] Instance float_Scalar : Scalar float := {|
  szero := PrimFloat.zero;
  sone := PrimFloat.one;
  sadd := PrimFloat.add;
  smul := PrimFloat.mul;
  sdiv := PrimFloat.div;
  sopp := PrimFloat.opp;
  sltb := PrimFloat.ltb;
  sleb := PrimFloat.leb;
  sfinite := PrimFloat.is_finite;
  slit := float_of_Q
|}.

(** ** Vectors and matrices (numpy arrays) *)

Section LinAlg.
Context {R : Type} `{Scalar R}.

Definition vec := list R.

(** A two-dimensional array is kept as the list of its columns, so that
    [F.T] is the list of the rows of the transpose. *)
Definition mat := list vec.

(** [np.inner(g, p)] *)
Fixpoint inner (g p : vec) : R :=
  match g, p with
  | a :: g', b :: p' => sadd (smul a b) (inner g' p')
  | _, _ => szero
  end.

(** [x + y] *)
Fixpoint vadd (x y : vec) : vec :=
  match x, y with
  | a :: x', b :: y' => sadd a b :: vadd x' y'
  | _, _ => []
  end.

(** [t * p] *)
Definition vscale (t : R) (p : vec) : vec := map (smul t) p.

(** [-g] *)
Definition vneg (g : vec) : vec := map sopp g.

(** [F.T.dot(r)] *)
Definition Tdot (F : mat) (r : vec) : vec := map (fun col => inner col r) F.

(** [np.all(np.isfinite(dx))] *)
Definition all_finite (dx : vec) : bool := forallb sfinite dx.
End LinAlg.

Arguments vec R : clear implicits.
Arguments mat R : clear implicits.

(** ** Exceptions and results *)

Inductive exn : Type :=
| BadStep             (* class BadStep(Exception) *)
| NotDescent          (* Exception('Descent direction p is not a descent direction ...') *)
| IndexError          (* indexing an empty sequence *)
| StoppingCriteria    (* Exception('Stopping criteria not determined!') *)
| ValueError          (* of the direction solver: a non-finite or misshapen system *)
| LinAlgError.        (* of the direction solver: no convergence *)

Inductive result (A : Type) : Type :=
| Ok (a : A)
| Raise (e : exn).
Arguments Ok {A} a.
Arguments Raise {A} e.

(** ** lnsrch_armijo *)

Section LineSearch.
Context {R : Type} `{Scalar R}.

(** [trajectory(x0, p, t)]; it may raise. *)
Definition trajectory_t := vec R -> vec R -> R -> result (vec R).

(** [lambda x0, p, t: x0 + t * p] *)
Definition default_trajectory : trajectory_t :=
  fun x0 p t => Ok (vadd x0 (vscale t p)).

Definition or_default_trajectory (trajectory : option trajectory_t) : trajectory_t :=
  match trajectory with
  | None => default_trajectory
  | Some t => t
  end.

(** The [for it in range(maxiter)] loop of lines 49-59, [n] trials left.
    [Ok (Some (x, alpha, fx))]: left by [break] with [success = True];
    [Ok None]: the range is exhausted with [success = False];
    [Raise e]: an exception other than [BadStep] left the [try]. *)
Fixpoint backtrack (f : vec R -> result R) (trajectory : trajectory_t)
    (p x0 : vec R) (fx0 dg bt_factor ftol : R) (n : nat) (alpha : R)
    : result (option (vec R * R * R)) :=
  match n with
  | O => Ok None
  | S n' =>
      let next := backtrack f trajectory p x0 fx0 dg bt_factor ftol n'
                    (smul alpha bt_factor) in
      match trajectory x0 p alpha with
      | Raise BadStep => next
      | Raise e => Raise e
      | Ok x =>
          match f x with
          | Raise BadStep => next
          | Raise e => Raise e
          | Ok fx =>
              if sltb fx (sadd fx0 (smul (smul alpha ftol) dg))
              then Ok (Some (x, alpha, fx))
              else next
          end
      end
  end.

Definition lnsrch_armijo (f : vec R -> result R) (g p x0 : vec R)
    (bt_factor ftol : R) (maxiter : Z) (trajectory : option trajectory_t)
    : result (vec R * R * R) :=
  let trajectory := or_default_trajectory trajectory in
  let dg := inner g p in
  if sgtb dg szero then Raise NotDescent
  else
    let alpha := sone in
    match f x0 with
    | Raise e => Raise e
    | Ok fx0 =>
        match backtrack f trajectory p x0 fx0 dg bt_factor ftol
                (Z.to_nat maxiter) alpha with
        | Raise e => Raise e
        | Ok (Some (x, alpha, fx)) => Ok (x, alpha, fx)
        | Ok None => Ok (x0, szero, fx0)
        end
    end.
End LineSearch.

Arguments trajectory_t R : clear implicits.

(** ** Effects of gn: events, and the monad that collects them *)

Section Events.
Variable R : Type.

Inductive event : Type :=
| EvResidual (x : vec R)                        (* gn evaluates [f(x)] *)
| EvJacobian (x : vec R)                        (* gn evaluates [F(x)] *)
| EvSolve (F_eval : mat R) (f_eval : vec R)     (* the direction solver is called *)
| EvDump (dx : vec R) (s : list R) (F_eval : mat R) (f_eval : vec R)
    (* lines 154-158: the prints and [np.savez('breaking_lstsq.npz', ...)] *)
| EvLineSearch (grad dx x : vec R)              (* [linesearch(..., grad, dx, x, ...)] *)
| EvRow (it : Z) (normf normdx cond alpha normgrad : R).
    (* lines 178-180: one row of the verbose table *)

Definition M (A : Type) : Type := (list event * result A)%type.

Definition ret {A} (a : A) : M A := ([], Ok a).

Definition bind {A B} (m : M A) (k : A -> M B) : M B :=
  match m with
  | (t, Ok a) => let '(t', r) := k a in (t ++ t', r)
  | (t, Raise e) => (t, Raise e)
  end.

Definition tell (e : event) : M unit := ([e], Ok tt).

Definition lift {A} (r : result A) : M A := ([], r).

Definition when (b : bool) (m : M unit) : M unit := if b then m else ret tt.
End Events.

Arguments ret {R A} a.
Arguments bind {R A B} m k.
Arguments tell {R} e.
Arguments lift {R A} r.
Arguments when {R} b m.
Arguments EvResidual {R} x.
Arguments EvJacobian {R} x.
Arguments EvSolve {R} F_eval f_eval.
Arguments EvDump {R} dx s F_eval f_eval.
Arguments EvLineSearch {R} grad dx x.
Arguments EvRow {R} it normf normdx cond alpha normgrad.

Declare Scope gn_scope.
Delimit Scope gn_scope with gn.
Notation "x <- m ;; k" := (bind m (fun x => k))
  (at level 61, m at next level, right associativity) : gn_scope.
Notation "' p <- m ;; k" := (bind m (fun p => k))
  (at level 61, p pattern, m at next level, right associativity) : gn_scope.
Notation "m ;;; k" := (bind m (fun _ => k))
  (at level 61, right associativity) : gn_scope.

(** ** gn *)

Section GaussNewton.
Context {R : Type} `{Scalar R}.
Local Open Scope gn_scope.

(** [np.linalg.norm], of numpy. *)
Variable norm : vec R -> R.

(** [lambda F, b: sp.linalg.lstsq(F, b, lapack_driver='gelss')], of scipy,
    reduced to the two components gn keeps: the solution and the singular
    values.  It may raise. *)
Variable lstsq : mat R -> vec R -> result (vec R * list R).

(** A direction solver: the default one of line 149 or [gnsolver]. *)
Definition solver_t := mat R -> vec R -> result (vec R * list R).

Definition linesearch_t :=
  (vec R -> result R) -> vec R -> vec R -> vec R -> trajectory_t R ->
  result (vec R * R * R).

(** The default line search, with the defaults of its signature:
    [bt_factor=0.5, ftol=1e-4, maxiter=40]. *)
Definition default_linesearch : linesearch_t :=
  fun f g p x0 trajectory =>
    lnsrch_armijo f g p x0 (slit 0.5) (slit 1e-4) 40 (Some trajectory).

Definition or_default_linesearch (linesearch : option linesearch_t) : linesearch_t :=
  match linesearch with
  | None => default_linesearch
  | Some l => l
  end.

(** Lines 148-151. *)
Definition solve_direction (gnsolver : option solver_t) (F_eval : mat R) (f_eval : vec R)
    : result (vec R * list R) :=
  match gnsolver with
  | None => lstsq F_eval (vneg f_eval)
  | Some g => g F_eval f_eval
  end.

(** Line 160: [cond = s[0] / s[-1]]. *)
Definition cond_of (s : list R) : result R :=
  match s with
  | [] => Raise IndexError
  | s0 :: _ => Ok (sdiv s0 (last s s0))
  end.

(** Lines 163-164. *)
Definition descent_or_gradient (grad dx : vec R) : vec R :=
  if sgeb (inner grad dx) szero then vneg grad else dx.

(** The variables of the loop body that are read after the body, by the
    stopping tests and by the classification after the loop. *)
Record loop_vars : Type := {
  lv_x : vec R;
  lv_grad : vec R;
  lv_normgrad : R;
  lv_normdx : R;
  lv_it : Z;
  lv_f_eval : vec R;
  lv_f_eval_new : R;
  lv_residual_increased : bool
}.

Section Body.
Variable f : vec R -> vec R.
Variable F : vec R -> mat R.
Variable tol tol_normdx : R.
Variable verbose : Z.
Variable linesearch : linesearch_t.
Variable trajectory : trajectory_t R.
Variable gnsolver : option solver_t.

Definition eval_f (x : vec R) : M R (vec R) := tell (EvResidual x) ;;; ret (f x).
Definition eval_F (x : vec R) : M R (mat R) := tell (EvJacobian x) ;;; ret (F x).

(** [F(x).T.dot(f(x))] *)
Definition eval_grad (x : vec R) : M R (vec R) :=
  F_x <- eval_F x ;;
  f_x <- eval_f x ;;
  ret (Tdot F_x f_x).

(** [lambda x: np.linalg.norm(f(x))] *)
Definition objective : vec R -> result R := fun x => Ok (norm (f x)).

(** Lines 160-180: the rest of an iteration once [dx, s] are known. *)
Definition gn_step (it : Z) (x grad : vec R) (f_eval : vec R) (dx : vec R) (s : list R)
    : M R loop_vars :=
  cond <- lift (cond_of s) ;;
  let dx := descent_or_gradient grad dx in
  tell (EvLineSearch grad dx x) ;;;
  '(x_new, alpha, f_eval_new) <- lift (linesearch objective grad dx x trajectory) ;;
  let residual_increased := sgeb f_eval_new (norm f_eval) in
  let x := if residual_increased then x else x_new in
  let normf := norm [f_eval_new] in
  let normdx := norm dx in
  grad <- eval_grad x ;;
  let normgrad := norm grad in
  when (1 <=? verbose)%Z (tell (EvRow it normf normdx cond alpha normgrad)) ;;;
  ret {| lv_x := x; lv_grad := grad; lv_normgrad := normgrad;
         lv_normdx := normdx; lv_it := it; lv_f_eval := f_eval;
         lv_f_eval_new := f_eval_new;
         lv_residual_increased := residual_increased |}.

(** Lines 134-180: the body of one outer iteration ([fdcheck] is False). *)
Definition gn_body (it : Z) (x grad : vec R) : M R loop_vars :=
  f_eval <- eval_f x ;;
  F_eval <- eval_F x ;;
  tell (EvSolve F_eval f_eval) ;;;
  '(dx, s) <- lift (solve_direction gnsolver F_eval f_eval) ;;
  when (negb (all_finite dx)) (tell (EvDump dx s F_eval f_eval)) ;;;
  gn_step it x grad f_eval dx s.

(** Lines 181-189: the three [break] tests. *)
Definition gn_break (v : loop_vars) : bool :=
  if sltb (lv_normgrad v) tol then true
  else if sltb (lv_normdx v) tol_normdx then true
  else lv_residual_increased v.

(** [for it in range(maxiter)], entered at iteration [it] with [more]
    iterations of the range left after it.  The value is the state of
    the variables when the loop is left. *)
Fixpoint gn_loop (more : nat) (it : Z) (x grad : vec R) : M R loop_vars :=
  v <- gn_body it x grad ;;
  if gn_break v then ret v
  else match more with
       | O => ret v
       | S more' => gn_loop more' (it + 1)%Z (lv_x v) (lv_grad v)
       end.

(** Lines 191-208. *)
Definition gn_info (maxiter : Z) (v : loop_vars) : result Z :=
  if sleb (lv_normgrad v) tol then Ok 0%Z
  else if sleb (lv_normdx v) tol_normdx then Ok 1%Z
  else if (lv_it v =? maxiter - 1)%Z then Ok 2%Z
  else if sgeb (lv_f_eval_new v) (norm (lv_f_eval v)) then Ok 3%Z
  else Raise StoppingCriteria.
End Body.

Definition gn (f : vec R -> vec R) (F : vec R -> mat R) (x0 : vec R)
    (tol tol_normdx : R) (maxiter : Z) (linesearch : option linesearch_t)
    (verbose : Z) (trajectory : option (trajectory_t R))
    (gnsolver : option solver_t) : M R (vec R * Z) :=
  let n := length x0 in
  if (maxiter <=? 0)%Z then ret (x0, 4%Z)
  else
    let trajectory := or_default_trajectory trajectory in
    let linesearch := or_default_linesearch linesearch in
    let x := x0 in
    grad <- eval_grad f F x ;;
    let normgrad := norm grad in
    let tol := pymax (smul tol normgrad) (slit 1e-14) in
    v <- gn_loop f F tol tol_normdx verbose linesearch trajectory gnsolver
           (Z.to_nat maxiter - 1) 0%Z x grad ;;
    info <- lift (gn_info tol tol_normdx maxiter v) ;;
    ret (lv_x v, info).
End GaussNewton.


(** * Vocabulary of the properties *)

(** A callable that, when it raises, raises [BadStep]. *)
Definition raises_only_BadStep {A} (r : result A) : Prop :=
  forall e, r = Raise e -> e = BadStep.

Section LineSearchVocabulary.
Context {R : Type} `{Scalar R}.
Variable f : vec R -> result R.
Variable trajectory : trajectory_t R.
Variables p x0 : vec R.
Variables fx0 dg ftol : R.

(** A trial that raises [BadStep], in the trajectory or in the objective. *)
Definition step_rejected (alpha : R) : Prop :=
  trajectory x0 p alpha = Raise BadStep \/
  exists x, trajectory x0 p alpha = Ok x /\ f x = Raise BadStep.

(** A trial that is evaluated and fails the Armijo test. *)
Definition armijo_failed (alpha : R) : Prop :=
  exists x fx, trajectory x0 p alpha = Ok x /\ f x = Ok fx /\
    sltb fx (sadd fx0 (smul (smul alpha ftol) dg)) = false.
End LineSearchVocabulary.

Section RunVocabulary.
Context {R : Type} `{Scalar R}.
Variable norm : vec R -> R.
Variable lstsq : mat R -> vec R -> result (vec R * list R).
Variable f : vec R -> vec R.
Variable F : vec R -> mat R.
Variable x0 : vec R.
Variable tol tol_normdx : R.
Variable maxiter : Z.
Variable linesearch : option (linesearch_t (R:=R)).
Variable verbose : Z.
Variable trajectory : option (trajectory_t R).

(** The variables at the end of an iteration that started at [x] with
    residual [f_eval], searched along [dx] and got [(x_new, f_eval_new)]
    from the line search. *)
Definition vars_after (it : Z) (x f_eval dx x_new : vec R) (f_eval_new : R)
    : loop_vars (R:=R) :=
  let residual_increased := sgeb f_eval_new (norm f_eval) in
  let x' := if residual_increased then x else x_new in
  let grad := Tdot (F x') (f x') in
  {| lv_x := x'; lv_grad := grad; lv_normgrad := norm grad;
     lv_normdx := norm dx; lv_it := it; lv_f_eval := f_eval;
     lv_f_eval_new := f_eval_new;
     lv_residual_increased := residual_increased |}.

(** The table row of an iteration, when [verbose >= 1]. *)
Definition row_of (it : Z) (v : loop_vars (R:=R)) (cond alpha : R) : list (event R) :=
  if (1 <=? verbose)%Z
  then [EvRow it (norm [lv_f_eval_new v]) (lv_normdx v) cond alpha (lv_normgrad v)]
  else [].

(** The gradient at the initial point and the rescaled tolerance (lines
    127-131). *)
Definition initial_grad : vec R := Tdot (F x0) (f x0).
Definition rescaled_tol : R := pymax (smul tol (norm initial_grad)) (slit 1e-14).

(** The outer loop as [gn] runs it. *)
Definition gn_run (gnsolver : option (solver_t (R:=R))) : M R (loop_vars (R:=R)) :=
  gn_loop norm lstsq f F rescaled_tol tol_normdx verbose
    (or_default_linesearch linesearch) (or_default_trajectory trajectory) gnsolver
    (Z.to_nat maxiter - 1) 0%Z x0 initial_grad.

(** The termination code in the priority order of the design document:
    Converged, ConvergedOnStepSize, MaxIterationsExceeded, NoProgress. *)
Definition termination_code (v : loop_vars (R:=R)) : Z :=
  if sleb (lv_normgrad v) rescaled_tol then 0%Z
  else if sleb (lv_normdx v) tol_normdx then 1%Z
  else if (lv_it v =? maxiter - 1)%Z then 2%Z
  else 3%Z.
End RunVocabulary.

(** The direction a solver returns, or the exception it raises. *)
Definition direction_of {R} (r : result (vec R * list R)) : result (vec R) :=
  match r with
  | Ok (dx, _) => Ok dx
  | Raise e => Raise e
  end.

(** A direction solver that, on some system, returns no singular value. *)
Definition returns_empty {R} (solver : mat R -> vec R -> result (vec R * list R)) : Prop :=
  exists F_eval f_eval dx, solver F_eval f_eval = Ok (dx, []).

(** Two outcomes that are the same unless one of the two runs stopped on
    the indexing of an empty sequence of singular values. *)
Definition same_or_IndexError {A} (empty1 empty2 : Prop) (r1 r2 : result A) : Prop :=
  r1 = r2 \/ (empty1 /\ r1 = Raise IndexError) \/ (empty2 /\ r2 = Raise IndexError).

(** The points at which the line search is called, in program order: the
    current iterate of every iteration that gets that far. *)
Fixpoint iterates {R} (t : list (event R)) : list (vec R) :=
  match t with
  | [] => []
  | EvLineSearch _ _ x :: t' => x :: iterates t'
  | _ :: t' => iterates t'
  end.




(** ** Trials of the line search, and kinds of events *)

Section TrialVocabulary.
Context {R : Type} `{Scalar R}.
Variable f : vec R -> result R.
Variable trajectory : trajectory_t R.
Variables p x0 : vec R.
Variables fx0 dg bt_factor ftol : R.

(** The step of the trial number [k] (from 0): [alpha] after [k]
    executions of [alpha *= bt_factor], started at [alpha]. *)
Definition step_from (alpha : R) (k : nat) : R :=
  Nat.iter k (fun t => smul t bt_factor) alpha.

(** A trial that is evaluated and passes the Armijo test. *)
Definition trial_accepted (alpha : R) (x : vec R) (fx : R) : Prop :=
  trajectory x0 p alpha = Ok x /\ f x = Ok fx /\
  sltb fx (sadd fx0 (smul (smul alpha ftol) dg)) = true.

(** A trial after which the loop goes on. *)
Definition trial_not_accepted (alpha : R) : Prop :=
  step_rejected f trajectory p x0 alpha \/
  armijo_failed f trajectory p x0 fx0 dg ftol alpha.

(** A trial in which the trajectory or the objective raises [e]. *)
Definition trial_raises (alpha : R) (e : exn) : Prop :=
  trajectory x0 p alpha = Raise e \/
  exists x, trajectory x0 p alpha = Ok x /\ f x = Raise e.
End TrialVocabulary.

(** The steps of the first [n] trials of a search, [1, bt_factor,
    bt_factor^2, ...] as the code computes them, are all positive and at
    most one. *)
Definition steps_in_range {R} `{Scalar R} (bt_factor : R) (n : nat) : bool :=
  forallb (fun k => sltb szero (step_from bt_factor sone k)
                    && sleb (step_from bt_factor sone k) sone)
    (seq 0 n).

Definition is_residual {R} (e : event R) : bool :=
  match e with EvResidual _ => true | _ => false end.
Definition is_jacobian {R} (e : event R) : bool :=
  match e with EvJacobian _ => true | _ => false end.
Definition is_solve {R} (e : event R) : bool :=
  match e with EvSolve _ _ => true | _ => false end.
Definition is_linesearch {R} (e : event R) : bool :=
  match e with EvLineSearch _ _ _ => true | _ => false end.
Definition is_row {R} (e : event R) : bool :=
  match e with EvRow _ _ _ _ _ _ => true | _ => false end.

(** How many events of a kind a run has. *)
Definition count {R} (kind : event R -> bool) (t : list (event R)) : nat :=
  length (filter kind t).

(** A run without the rows of the verbose table. *)
Definition strip_rows {R} (t : list (event R)) : list (event R) :=
  filter (fun e => negb (is_row e)) t.

(** ** Binary64: the order and the signs *)










(** * Concrete numerics used to run the code *)

(** [np.linalg.norm] on binary64: the square root of the sum of squares. *)
Definition float_norm (v : vec float) : float :=
  PrimFloat.sqrt (fold_right (fun a acc => PrimFloat.add (PrimFloat.mul a a) acc)
                    PrimFloat.zero v).

(** [sp.linalg.lstsq] on the 1x1 systems [a * x = b]: the minimum-norm
    least-squares solution and the singular value of [[a]]; [ValueError]
    when an entry is not finite ([check_finite] is on by default).  Systems
    of another shape are outside this instance and are refused. *)
Definition lstsq_1x1 (F_eval : mat float) (b : vec float)
    : result (vec float * list float) :=
  match F_eval, b with
  | [[a]], [b0] =>
      if PrimFloat.is_finite a && PrimFloat.is_finite b0
      then Ok ([if PrimFloat.eqb a PrimFloat.zero then PrimFloat.zero
                else PrimFloat.div b0 a],
               [PrimFloat.abs a])
      else Raise ValueError
  | _, _ => Raise ValueError
  end.

(** [f(x) = x^2] and [F(x) = 2x], elementwise on a vector of length one. *)
Definition square_residual (x : vec float) : vec float :=
  map (fun a => PrimFloat.mul a a) x.
Definition square_jacobian (x : vec float) : mat float :=
  map (fun a => [PrimFloat.mul PrimFloat.two a]) x.

(** [f(x) = x - 5] and [F(x) = 1]. *)
Definition shift_residual (x : vec float) : vec float :=
  map (fun a => PrimFloat.sub a (slit 5)) x.
Definition shift_jacobian (x : vec float) : mat float :=
  map (fun _ => [PrimFloat.one]) x.

(** [f(x) = -x^2], which is stationary at 0. *)
Definition concave_objective (x : vec float) : result float :=
  Ok (PrimFloat.opp (fold_right (fun a acc => PrimFloat.add (PrimFloat.mul a a) acc)
                       PrimFloat.zero x)).

(** A trajectory that rejects every step longer than a quarter. *)
Definition short_steps_only : trajectory_t float :=
  fun x0 p t =>
    if PrimFloat.ltb (slit 0.25) t then Raise BadStep
    else Ok (vadd x0 (vscale t p)).

(** A direction solver that returns an infinite direction. *)
Definition infinite_solver (F_eval : mat float) (f_eval : vec float)
    : result (vec float * list float) :=
  Ok ([PrimFloat.infinity], [PrimFloat.one]).

(** Two direction solvers that return the same direction, one with an
    empty sequence of singular values. *)
Definition solver_without_values (F_eval : mat float) (f_eval : vec float)
    : result (vec float * list float) := Ok ([slit 5], []).
Definition solver_with_values (s : list float) (F_eval : mat float) (f_eval : vec float)
    : result (vec float * list float) := Ok ([slit 5], s).

(** [f(x) = sqrt(x)] on a vector of length one: a NaN left of zero. *)
Definition sqrt_objective (x : vec float) : result float :=
  Ok (PrimFloat.sqrt (hd PrimFloat.zero x)).


(** An objective that tells the two zeros apart: 5 at [-0.0], 1 at [+0.0]
    (the sign is read off [1 / x]) and 10 everywhere else. *)
Definition signed_zero_objective (x : vec float) : result float :=
  Ok (match x with
      | [a] =>
          if PrimFloat.eqb a PrimFloat.zero
          then if PrimFloat.ltb (PrimFloat.div PrimFloat.one a) PrimFloat.zero
               then slit 5 else PrimFloat.one
          else slit 10
      | _ => slit 10
      end).

(** A direction solver that returns a NaN direction. *)
Definition nan_solver (F_eval : mat float) (f_eval : vec float)
    : result (vec float * list float) :=
  Ok ([PrimFloat.nan], [PrimFloat.one]).

(** * Properties *)

Ltac case_if :=
  match goal with
  | |- context [if ?b then _ else _] => destruct b eqn:?
  end.

(** ** The monad *)

Section MonadFacts.
Variable R : Type.
Local Open Scope gn_scope.

Lemma snd_bind A B (m : M R A) (k : A -> M R B) :
  snd (bind m k) = match snd m with Ok a => snd (k a) | Raise e => Raise e end.
Proof.
  destruct m as [t [a|e]]; simpl; [destruct (k a); reflexivity | reflexivity].
Qed.

Lemma fst_bind A B (m : M R A) (k : A -> M R B) :
  fst (bind m k) = fst m ++ match snd m with Ok a => fst (k a) | Raise _ => [] end.
Proof.
  destruct m as [t [a|e]]; simpl; [destruct (k a); reflexivity | now rewrite app_nil_r].
Qed.

Lemma bind_Ok_inv A B (m : M R A) (k : A -> M R B) t b :
  bind m k = (t, Ok b) ->
  exists t1 a t2, m = (t1, Ok a) /\ k a = (t2, Ok b) /\ t = t1 ++ t2.
Proof.
  destruct m as [t1 [a|e]]; simpl.
  - destruct (k a) as [t2 r] eqn:E. intros [= <- ->]. now exists t1, a, t2.
  - discriminate.
Qed.

End MonadFacts.




(** ** The line search *)

Section LineSearchFacts.
Context {R : Type} `{Scalar R}.
Variable f : vec R -> result R.
Variable trajectory : trajectory_t R.
Variables p x0 : vec R.
Variables fx0 dg bt_factor ftol : R.

Let loop := backtrack f trajectory p x0 fx0 dg bt_factor ftol.

Lemma backtrack_rejected n alpha :
  step_rejected f trajectory p x0 alpha -> loop (S n) alpha = loop n (smul alpha bt_factor).
Proof.
  unfold loop. intros [E | (x & E & E')]; simpl; rewrite E; [reflexivity|].
  now rewrite E'.
Qed.

Lemma backtrack_failed n alpha :
  armijo_failed f trajectory p x0 fx0 dg ftol alpha -> loop (S n) alpha = loop n (smul alpha bt_factor).
Proof.
  unfold loop. intros (x & fx & E & E' & E''). simpl. now rewrite E, E', E''.
Qed.

Lemma backtrack_no_BadStep n alpha : loop n alpha <> Raise BadStep.
Proof.
  unfold loop. revert alpha. induction n as [|n IH]; intros alpha; simpl.
  - discriminate.
  - destruct (trajectory x0 p alpha) as [x|[]]; try discriminate; [|apply IH].
    destruct (f x) as [fx|[]]; try discriminate; [|apply IH].
    destruct (sltb _ _); [discriminate | apply IH].
Qed.

(** On success the value returned is the objective at the point returned,
    it passed the Armijo test, and the step is [bt_factor^k] for the number
    [k] of trials that failed before. *)
Lemma backtrack_success n alpha x a fx :
  loop n alpha = Ok (Some (x, a, fx)) ->
  f x = Ok fx /\ trajectory x0 p a = Ok x /\
  sltb fx (sadd fx0 (smul (smul a ftol) dg)) = true /\
  exists k, (k < n)%nat /\ a = Nat.iter k (fun t => smul t bt_factor) alpha.
Proof.
  unfold loop. revert alpha. induction n as [|n IH]; intros alpha; simpl.
  - discriminate.
  - assert (Hnext : backtrack f trajectory p x0 fx0 dg bt_factor ftol n
                      (smul alpha bt_factor) = Ok (Some (x, a, fx)) ->
            f x = Ok fx /\ trajectory x0 p a = Ok x /\
            sltb fx (sadd fx0 (smul (smul a ftol) dg)) = true /\
            exists k, (k < S n)%nat /\ a = Nat.iter k (fun t => smul t bt_factor) alpha).
    { intros E. destruct (IH _ E) as (? & ? & ? & k & ? & ->).
      repeat split; auto. exists (S k). split; [lia|].
      clear. induction k as [|k IHk]; simpl; [reflexivity|]. simpl in IHk. now rewrite IHk. }
    destruct (trajectory x0 p alpha) as [x'|[]] eqn:Et; try discriminate; auto.
    destruct (f x') as [fx'|[]] eqn:Ef; try discriminate; auto.
    destruct (sltb fx' _) eqn:Ea; auto.
    intros [= -> -> ->]. repeat split; auto. exists 0%nat. split; [lia | reflexivity].
Qed.
End LineSearchFacts.

Section LineSearchClaims.
Context {R : Type} `{Scalar R}.

(** C4, as amended.  The guard of [lnsrch_armijo] is [dg > 0]: the call
    raises the non-descent exception exactly when [inner(g, p)] is strictly
    positive.  When it is not (in particular when it is zero, as for a zero
    gradient), no direction error is raised and the call is the backtracking
    search itself. *)
Theorem lnsrch_armijo_guard_is_strict
    (f : vec R -> result R) (g p x0 : vec R) (bt_factor ftol : R) (maxiter : Z)
    (trajectory : option (trajectory_t R)) :
  (sgtb (inner g p) szero = true ->
     lnsrch_armijo f g p x0 bt_factor ftol maxiter trajectory = Raise NotDescent) /\
  (sgtb (inner g p) szero = false ->
     lnsrch_armijo f g p x0 bt_factor ftol maxiter trajectory =
       match f x0 with
       | Raise e => Raise e
       | Ok fx0 =>
           match backtrack f (or_default_trajectory trajectory) p x0 fx0 (inner g p)
                   bt_factor ftol (Z.to_nat maxiter) sone with
           | Raise e => Raise e
           | Ok (Some r) => Ok r
           | Ok None => Ok (x0, szero, fx0)
           end
       end).
Proof.
  unfold lnsrch_armijo. split; intros ->; [reflexivity|].
  destruct (f x0) as [fx0|]; [|reflexivity].
  destruct (backtrack _ _ _ _ _ _ _ _ _ _) as [[[[x a] fx]|]|]; reflexivity.
Qed.


(** What [lnsrch_armijo] returns is consistent: the value is the objective
    at the point. *)
Lemma lnsrch_armijo_value
    (f : vec R -> result R) (g p x0 : vec R) (bt_factor ftol : R) (maxiter : Z)
    (trajectory : option (trajectory_t R)) x a fx :
  lnsrch_armijo f g p x0 bt_factor ftol maxiter trajectory = Ok (x, a, fx) ->
  f x = Ok fx.
Proof.
  unfold lnsrch_armijo. destruct (sgtb _ _); [discriminate|].
  destruct (f x0) as [fx0|e] eqn:E0; [|discriminate].
  destruct (backtrack _ _ _ _ _ _ _ _ _ _) as [[[[x' a'] fx']|]|e] eqn:E; try discriminate.
  - intros [= -> -> ->]. now apply backtrack_success in E.
  - now intros [= <- <- <-].
Qed.
End LineSearchClaims.




(** ** The outer iteration *)

Section GaussNewtonFacts.
Context {R : Type} `{Scalar R}.
Variable norm : vec R -> R.
Variable lstsq : mat R -> vec R -> result (vec R * list R).
Variable f : vec R -> vec R.
Variable F : vec R -> mat R.
Variable tol tol_normdx : R.
Variable verbose : Z.
Variable linesearch : linesearch_t (R:=R).
Variable trajectory : trajectory_t R.
Variable gnsolver : option (solver_t (R:=R)).

Lemma eval_grad_eq x :
  eval_grad f F x = ([EvJacobian x; EvResidual x], Ok (Tdot (F x) (f x))).
Proof. reflexivity. Qed.

Lemma gn_step_eq it x grad f_eval dx s :
  gn_step norm f F verbose linesearch trajectory it x grad f_eval dx s =
  match cond_of s with
  | Raise e => ([], Raise e)
  | Ok cond =>
      let dx' := descent_or_gradient grad dx in
      match linesearch (objective norm f) grad dx' x trajectory with
      | Raise e => ([EvLineSearch grad dx' x], Raise e)
      | Ok (x_new, alpha, f_eval_new) =>
          let v := vars_after norm f F it x f_eval dx' x_new f_eval_new in
          (EvLineSearch grad dx' x :: EvJacobian (lv_x v) :: EvResidual (lv_x v)
             :: row_of norm verbose it v cond alpha,
           Ok v)
      end
  end.
Proof.
  unfold gn_step, row_of. destruct (cond_of s) as [c|e]; [|reflexivity].
  cbn. destruct (linesearch _ _ _ _ _) as [[[x_new alpha] fnew]|e]; [|reflexivity].
  cbn. destruct (1 <=? verbose)%Z; reflexivity.
Qed.

Lemma gn_body_eq it x grad :
  gn_body norm lstsq f F verbose linesearch trajectory gnsolver it x grad =
  match solve_direction lstsq gnsolver (F x) (f x) with
  | Raise e => ([EvResidual x; EvJacobian x; EvSolve (F x) (f x)], Raise e)
  | Ok (dx, s) =>
      let '(t, r) :=
        gn_step norm f F verbose linesearch trajectory it x grad (f x) dx s in
      (EvResidual x :: EvJacobian x :: EvSolve (F x) (f x)
         :: (if all_finite dx then [] else [EvDump dx s (F x) (f x)]) ++ t,
       r)
  end.
Proof.
  unfold gn_body. cbn -[gn_step].
  destruct (solve_direction _ _ _ _) as [[dx s]|e]; [|reflexivity].
  destruct (all_finite dx); cbn -[gn_step];
    destruct (gn_step norm f F verbose linesearch trajectory it x grad (f x) dx s)
      as [t' r']; reflexivity.
Qed.

(** What an iteration that completes leaves in the variables. *)
Lemma gn_body_Ok it x grad t v :
  gn_body norm lstsq f F verbose linesearch trajectory gnsolver it x grad = (t, Ok v) ->
  exists dx s x_new alpha f_eval_new,
    solve_direction lstsq gnsolver (F x) (f x) = Ok (dx, s) /\
    s <> [] /\
    linesearch (objective norm f) grad (descent_or_gradient grad dx) x trajectory
      = Ok (x_new, alpha, f_eval_new) /\
    v = vars_after norm f F it x (f x) (descent_or_gradient grad dx) x_new f_eval_new.
Proof.
  rewrite gn_body_eq.
  destruct (solve_direction _ _ _ _) as [[dx s]|e] eqn:Es; [|discriminate].
  rewrite gn_step_eq. destruct s as [|s0 s]; [discriminate|]. cbn.
  destruct (linesearch _ _ _ _ _) as [[[x_new alpha] fnew]|e] eqn:El; [|discriminate].
  intros [= _ <-]. exists dx, (s0 :: s), x_new, alpha, fnew.
  repeat split; auto. discriminate.
Qed.

Lemma gn_loop_eq more it x grad :
  gn_loop norm lstsq f F tol tol_normdx verbose linesearch trajectory gnsolver
    more it x grad =
  bind (gn_body norm lstsq f F verbose linesearch trajectory gnsolver it x grad)
    (fun v =>
       if gn_break tol tol_normdx v then ret v
       else match more with
            | O => ret v
            | S more' =>
                gn_loop norm lstsq f F tol tol_normdx verbose linesearch trajectory
                  gnsolver more' (it + 1)%Z (lv_x v) (lv_grad v)
            end).
Proof. destruct more; reflexivity. Qed.

(** The loop is left either by a [break] or with the range exhausted; the
    no-progress flag is the comparison that the classification repeats. *)
Lemma gn_loop_exit more it x grad t v :
  gn_loop norm lstsq f F tol tol_normdx verbose linesearch trajectory gnsolver
    more it x grad = (t, Ok v) ->
  (gn_break tol tol_normdx v = true \/ lv_it v = (it + Z.of_nat more)%Z) /\
  lv_residual_increased v = sgeb (lv_f_eval_new v) (norm (lv_f_eval v)).
Proof.
  revert it x grad t. induction more as [|more IH]; intros it x grad t;
    rewrite gn_loop_eq; intros E; apply bind_Ok_inv in E;
    destruct E as (t1 & v1 & t2 & Eb & Ek & _);
    apply gn_body_Ok in Eb; destruct Eb as (dx & s & xn & a & fn & _ & _ & _ & Ev).
  - assert (v = v1) as -> by (destruct (gn_break _ _ v1); now injection Ek).
    subst v1. split; [|reflexivity].
    destruct (gn_break _ _ _); [now left | right; cbn; lia].
  - destruct (gn_break tol tol_normdx v1) eqn:Eg.
    + injection Ek as _ <-. subst v1. split; [now left | reflexivity].
    + apply IH in Ek. destruct Ek as [[Hb | Hit] Hri]; split; auto.
      right. rewrite Hit. lia.
Qed.
End GaussNewtonFacts.

Section GaussNewtonClaims.
Context {R : Type} `{Scalar R}.
Variable norm : vec R -> R.
Variable lstsq : mat R -> vec R -> result (vec R * list R).
Variable f : vec R -> vec R.
Variable F : vec R -> mat R.
Variable x0 : vec R.
Variable tol tol_normdx : R.
Variable maxiter : Z.
Variable linesearch : option (linesearch_t (R:=R)).
Variable verbose : Z.
Variable trajectory : option (trajectory_t R).

Local Abbreviation rescaled_tol := (rescaled_tol norm f F x0 tol).
Local Abbreviation gn_run :=
  (gn_run norm lstsq f F x0 tol tol_normdx maxiter linesearch verbose trajectory).
Local Abbreviation termination_code :=
  (termination_code norm f F x0 tol tol_normdx maxiter).

Lemma gn_eq gnsolver :
  (0 < maxiter)%Z ->
  gn norm lstsq f F x0 tol tol_normdx maxiter linesearch verbose trajectory gnsolver =
  bind (eval_grad f F x0) (fun _ =>
  bind (gn_run gnsolver) (fun v =>
  bind (lift (gn_info norm rescaled_tol tol_normdx maxiter v)) (fun info =>
  ret (lv_x v, info)))).
Proof.
  intros Hpos. unfold gn.
  destruct (maxiter <=? 0)%Z eqn:E; [apply Z.leb_le in E; lia | reflexivity].
Qed.

Lemma gn_snd gnsolver :
  (0 < maxiter)%Z ->
  snd (gn norm lstsq f F x0 tol tol_normdx maxiter linesearch verbose trajectory gnsolver) =
  match snd (gn_run gnsolver) with
  | Ok v =>
      match gn_info norm rescaled_tol tol_normdx maxiter v with
      | Ok info => Ok (lv_x v, info)
      | Raise e => Raise e
      end
  | Raise e => Raise e
  end.
Proof.
  intros Hpos. rewrite (gn_eq gnsolver Hpos). rewrite snd_bind. cbn [snd eval_grad].
  rewrite eval_grad_eq. cbn [snd]. rewrite snd_bind.
  destruct (snd (gn_run gnsolver)) as [v|e]; [|reflexivity].
  rewrite snd_bind. cbn. destruct (gn_info _ _ _ _ _); reflexivity.
Qed.

(** Line 114. *)
Lemma gn_degenerate gnsolver :
  (maxiter <= 0)%Z ->
  gn norm lstsq f F x0 tol tol_normdx maxiter linesearch verbose trajectory gnsolver
  = ret (x0, 4%Z).
Proof.
  intros Hle. unfold gn. destruct (Z.leb_spec maxiter 0); [reflexivity | lia].
Qed.

(** C8.  With [maxiter <= 0] the call returns the initial point and the
    code 4 at once, and the list of events is empty: the residual, the
    Jacobian, the direction solver and the line search are not called. *)
Theorem gn_maxiter_nonpositive gnsolver :
  (maxiter <= 0)%Z ->
  gn norm lstsq f F x0 tol tol_normdx maxiter linesearch verbose trajectory gnsolver
  = ([], Ok (x0, 4%Z)).
Proof.
  intros Hle. unfold gn. apply Z.leb_le in Hle. now rewrite Hle.
Qed.

(** C3.  When the loop of a call with [maxiter > 0] is left, one of the
    four predicates of the classification holds, so that [gn_info] is the
    code given by the priority order and never the final [raise]; and a
    call that returns, returns the point and that code of the state in
    which the loop was left. *)
Theorem gn_termination_code gnsolver :
  (forall a b : R, sltb a b = true -> sleb a b = true) ->
  (0 < maxiter)%Z ->
  (forall t v, gn_run gnsolver = (t, Ok v) ->
     (sleb (lv_normgrad v) rescaled_tol = true \/
      sleb (lv_normdx v) tol_normdx = true \/
      lv_it v = (maxiter - 1)%Z \/
      sgeb (lv_f_eval_new v) (norm (lv_f_eval v)) = true) /\
     gn_info norm rescaled_tol tol_normdx maxiter v = Ok (termination_code v) /\
     snd (gn norm lstsq f F x0 tol tol_normdx maxiter linesearch verbose trajectory
            gnsolver) = Ok (lv_x v, termination_code v)) /\
  (forall x info,
     snd (gn norm lstsq f F x0 tol tol_normdx maxiter linesearch verbose trajectory
            gnsolver) = Ok (x, info) ->
     exists t v, gn_run gnsolver = (t, Ok v) /\ x = lv_x v /\ info = termination_code v).
Proof.
  intros Hlt_le Hpos.
  assert (Hexit : forall t v, gn_run gnsolver = (t, Ok v) ->
            (sleb (lv_normgrad v) rescaled_tol = true \/
             sleb (lv_normdx v) tol_normdx = true \/
             lv_it v = (maxiter - 1)%Z \/
             sgeb (lv_f_eval_new v) (norm (lv_f_eval v)) = true) /\
            gn_info norm rescaled_tol tol_normdx maxiter v = Ok (termination_code v)).
  { intros t v E. apply gn_loop_exit in E. destruct E as [Hexit Hri].
    assert (Hfour : sleb (lv_normgrad v) rescaled_tol = true \/
             sleb (lv_normdx v) tol_normdx = true \/
             lv_it v = (maxiter - 1)%Z \/
             sgeb (lv_f_eval_new v) (norm (lv_f_eval v)) = true).
    { destruct Hexit as [Hb | Hit].
      - unfold gn_break in Hb.
        destruct (sltb (lv_normgrad v) rescaled_tol) eqn:E1; [auto|].
        destruct (sltb (lv_normdx v) tol_normdx) eqn:E2; [auto|].
        rewrite Hri in Hb. auto.
      - right; right; left. rewrite Hit. lia. }
    split; [exact Hfour|].
    unfold gn_info, termination_code.
    destruct (sleb (lv_normgrad v) rescaled_tol); [reflexivity|].
    destruct (sleb (lv_normdx v) tol_normdx); [reflexivity|].
    destruct (lv_it v =? maxiter - 1)%Z eqn:E3; [reflexivity|].
    destruct Hfour as [?|[?|[Hit|Hge]]]; try discriminate.
    + apply Z.eqb_neq in E3. contradiction.
    + now rewrite Hge. }
  split.
  - intros t v E. destruct (Hexit t v E) as [Hfour Hinfo]. repeat split; auto.
    rewrite (gn_snd gnsolver Hpos), E. cbn [snd]. now rewrite Hinfo.
  - intros x info. rewrite (gn_snd gnsolver Hpos).
    destruct (gn_run gnsolver) as [t [v|e]] eqn:E; cbn [snd]; [|discriminate].
    destruct (Hexit t v eq_refl) as [_ Hinfo]. rewrite Hinfo.
    intros [= <- <-]. now exists t, v.
Qed.
End GaussNewtonClaims.

Lemma float_ltb_leb (a b : float) :
  PrimFloat.ltb a b = true -> PrimFloat.leb a b = true.
Proof.
  rewrite FloatAxioms.ltb_spec, FloatAxioms.leb_spec. unfold SFltb, SFleb.
  destruct (SFcompare _ _) as [[]|]; auto.
Qed.

Lemma gn_maxiter_nonpositive_witness :
  gn float_norm lstsq_1x1 shift_residual shift_jacobian [PrimFloat.zero]
    (slit 1e-5) (slit 1e-12) 0 None 0 None None
  = ([], Ok ([PrimFloat.zero], 4%Z)).
Proof.
  apply (@gn_maxiter_nonpositive float _ float_norm lstsq_1x1 shift_residual
           shift_jacobian [PrimFloat.zero] (slit 1e-5) (slit 1e-12) 0%Z None 0%Z
           None None).
  discriminate.
Defined.

(** On binary64, for [f(x) = x - 5] from [x0 = 0] the first Gauss-Newton
    step is exact: the loop is left with a zero gradient and the call
    returns [x = 5] with the code 0. *)
Lemma gn_termination_code_witness :
  snd (gn float_norm lstsq_1x1 shift_residual shift_jacobian [PrimFloat.zero]
         (slit 1e-5) (slit 1e-12) 100 None 0 None None)
  = Ok ([slit 5], 0%Z).
Proof.
  exact (proj2 (proj2 (proj1
    (@gn_termination_code float _ float_norm lstsq_1x1 shift_residual
       shift_jacobian [PrimFloat.zero] (slit 1e-5) (slit 1e-12) 100%Z None 0%Z
       None None float_ltb_leb eq_refl) _ _ eq_refl))).
Defined.

Section NonFiniteDirection.
Context {R : Type} `{Scalar R}.
Variable norm : vec R -> R.
Variable lstsq : mat R -> vec R -> result (vec R * list R).
Variable f : vec R -> vec R.
Variable F : vec R -> mat R.
Variable verbose : Z.
Variable linesearch : linesearch_t (R:=R).
Variable trajectory : trajectory_t R.
Variable gnsolver : option (solver_t (R:=R)).

(** C6, as amended.  When the direction solver returns a direction with a
    non-finite entry, the iteration records the diagnostics (the prints and
    the dump of lines 154-158) and then goes on as it does for a finite
    direction: the conditioning ratio, the descent test and, for a
    non-empty sequence of singular values, the call of the line search with
    that direction (or with the negated gradient when the descent test
    replaces it).  Nothing is raised for the non-finite direction. *)
Theorem gn_nonfinite_direction_continues (it : Z) (x grad dx : vec R) (s : list R) :
  solve_direction lstsq gnsolver (F x) (f x) = Ok (dx, s) ->
  all_finite dx = false ->
  gn_body norm lstsq f F verbose linesearch trajectory gnsolver it x grad =
    (let '(t, r) :=
       gn_step norm f F verbose linesearch trajectory it x grad (f x) dx s in
     ([EvResidual x; EvJacobian x; EvSolve (F x) (f x); EvDump dx s (F x) (f x)] ++ t,
      r)) /\
  (s <> [] ->
   exists t,
     fst (gn_step norm f F verbose linesearch trajectory it x grad (f x) dx s) =
     EvLineSearch grad (descent_or_gradient grad dx) x :: t).
Proof.
  intros Es Hnf. split.
  - rewrite gn_body_eq, Es, Hnf. reflexivity.
  - intros Hs. rewrite gn_step_eq. destruct s as [|s0 s']; [contradiction|]. cbn.
    destruct (linesearch _ _ _ _ _) as [[[x_new alpha] fnew]|e]; cbn; eauto.
Qed.
End NonFiniteDirection.

Lemma gn_nonfinite_direction_continues_witness :
  exists t,
    fst (gn_step float_norm shift_residual shift_jacobian 0
           (default_linesearch (R:=float)) default_trajectory 0
           [PrimFloat.zero] [slit (-5)] (shift_residual [PrimFloat.zero])
           [PrimFloat.infinity] [PrimFloat.one])
    = EvLineSearch [slit (-5)] [PrimFloat.infinity] [PrimFloat.zero] :: t.
Proof.
  refine (proj2 (@gn_nonfinite_direction_continues float _ float_norm lstsq_1x1
            shift_residual shift_jacobian 0%Z default_linesearch default_trajectory
            (Some infinite_solver) 0%Z [PrimFloat.zero] [slit (-5)]
            [PrimFloat.infinity] [PrimFloat.one] eq_refl eq_refl) _).
  discriminate.
Defined.

(** C6, as stated, fails: with a solver that returns an infinite direction
    the call on [f(x) = x - 5] from [x0 = 0] does not fail at that point.
    It dumps the diagnostics, hands the infinite direction to the line
    search and returns normally, with the code 3. *)
Lemma gn_nonfinite_direction_counterexample :
  infinite_solver (shift_jacobian [PrimFloat.zero]) (shift_residual [PrimFloat.zero])
  = Ok ([PrimFloat.infinity], [PrimFloat.one]) /\
  all_finite [PrimFloat.infinity] = false /\
  gn float_norm lstsq_1x1 shift_residual shift_jacobian [PrimFloat.zero]
    (slit 1e-5) (slit 1e-12) 100 None 0 None (Some infinite_solver)
  = ([EvJacobian [PrimFloat.zero]; EvResidual [PrimFloat.zero];
      EvResidual [PrimFloat.zero]; EvJacobian [PrimFloat.zero];
      EvSolve [[PrimFloat.one]] [slit (-5)];
      EvDump [PrimFloat.infinity] [PrimFloat.one] [[PrimFloat.one]] [slit (-5)];
      EvLineSearch [slit (-5)] [PrimFloat.infinity] [PrimFloat.zero];
      EvJacobian [PrimFloat.zero]; EvResidual [PrimFloat.zero]],
     Ok ([PrimFloat.zero], 3%Z)).
Proof. repeat split; vm_compute; reflexivity. Qed.

(** ** The singular values do not steer the iteration *)

Section SingularValues.
Context {R : Type} `{Scalar R}.
Variable norm : vec R -> R.
Variable lstsq : mat R -> vec R -> result (vec R * list R).
Variable f : vec R -> vec R.
Variable F : vec R -> mat R.
Variable tol tol_normdx : R.
Variable verbose : Z.
Variable linesearch : linesearch_t (R:=R).
Variable trajectory : trajectory_t R.

(** Two direction solvers that return the same direction, or raise the
    same exception. *)
Variables solver1 solver2 : solver_t (R:=R).
Hypothesis same_dx : forall F_eval f_eval,
  direction_of (solver1 F_eval f_eval) = direction_of (solver2 F_eval f_eval).

Lemma gn_step_snd it x grad f_eval dx s :
  snd (gn_step norm f F verbose linesearch trajectory it x grad f_eval dx s) =
  match s with
  | [] => Raise IndexError
  | _ :: _ =>
      match linesearch (objective norm f) grad (descent_or_gradient grad dx) x
              trajectory with
      | Raise e => Raise e
      | Ok (x_new, _, f_eval_new) =>
          Ok (vars_after norm f F it x f_eval (descent_or_gradient grad dx)
                x_new f_eval_new)
      end
  end.
Proof.
  rewrite gn_step_eq. destruct s as [|s0 s']; [reflexivity|]. cbn.
  destruct (linesearch _ _ _ _ _) as [[[x_new alpha] fnew]|e]; reflexivity.
Qed.

Lemma gn_body_snd gnsolver it x grad :
  snd (gn_body norm lstsq f F verbose linesearch trajectory gnsolver it x grad) =
  match solve_direction lstsq gnsolver (F x) (f x) with
  | Raise e => Raise e
  | Ok (dx, s) =>
      snd (gn_step norm f F verbose linesearch trajectory it x grad (f x) dx s)
  end.
Proof.
  rewrite gn_body_eq. destruct (solve_direction _ _ _ _) as [[dx s]|e]; [|reflexivity].
  destruct (gn_step _ _ _ _ _ _ _ _ _ _ _ _); reflexivity.
Qed.

Lemma gn_body_same it x grad :
  same_or_IndexError (returns_empty solver1) (returns_empty solver2)
    (snd (gn_body norm lstsq f F verbose linesearch trajectory (Some solver1) it x grad))
    (snd (gn_body norm lstsq f F verbose linesearch trajectory (Some solver2) it x grad)).
Proof.
  rewrite !gn_body_snd. cbn [solve_direction].
  pose proof (same_dx (F x) (f x)) as Hdx.
  destruct (solver1 (F x) (f x)) as [[dx1 s1]|e1] eqn:E1;
    destruct (solver2 (F x) (f x)) as [[dx2 s2]|e2] eqn:E2;
    cbn [direction_of] in Hdx; try discriminate.
  - injection Hdx as <-. rewrite !gn_step_snd.
    destruct s1 as [|a1 s1];
      [right; left; split; [now exists (F x), (f x), dx1 | reflexivity]|].
    destruct s2 as [|a2 s2];
      [right; right; split; [now exists (F x), (f x), dx1 | reflexivity]|].
    now left.
  - injection Hdx as <-. now left.
Qed.

Lemma gn_loop_same more it x grad :
  same_or_IndexError (returns_empty solver1) (returns_empty solver2)
    (snd (gn_loop norm lstsq f F tol tol_normdx verbose linesearch trajectory
            (Some solver1) more it x grad))
    (snd (gn_loop norm lstsq f F tol tol_normdx verbose linesearch trajectory
            (Some solver2) more it x grad)).
Proof.
  revert it x grad. induction more as [|more IH]; intros it x grad;
    rewrite !gn_loop_eq, !snd_bind;
    destruct (gn_body_same it x grad) as [E | [[He E] | [He E]]]; rewrite E;
    try (right; left; now split); try (right; right; now split);
    destruct (snd (gn_body _ _ _ _ _ _ _ (Some solver2) _ _ _)) as [v|e];
    try (now left);
    destruct (gn_break tol tol_normdx v); try (now left).
  apply IH.
Qed.
End SingularValues.

(** C9.  Two runs of [gn] that differ only in the singular values their
    direction solvers return next to the same direction: when both return,
    they return the same point and the same code; and when the sequences of
    singular values are never empty, the two runs have the same outcome
    altogether.  (An empty sequence stops a run on [s[0]].) *)
Theorem gn_singular_values_irrelevant {R : Type} `{Scalar R}
    (norm : vec R -> R) (lstsq : mat R -> vec R -> result (vec R * list R))
    (f : vec R -> vec R) (F : vec R -> mat R) (x0 : vec R) (tol tol_normdx : R)
    (maxiter : Z) (linesearch : option (linesearch_t (R:=R))) (verbose : Z)
    (trajectory : option (trajectory_t R)) (solver1 solver2 : solver_t (R:=R)) :
  (forall F_eval f_eval,
     direction_of (solver1 F_eval f_eval) = direction_of (solver2 F_eval f_eval)) ->
  let r1 := snd (gn norm lstsq f F x0 tol tol_normdx maxiter linesearch verbose
                   trajectory (Some solver1)) in
  let r2 := snd (gn norm lstsq f F x0 tol tol_normdx maxiter linesearch verbose
                   trajectory (Some solver2)) in
  (forall x1 c1 x2 c2, r1 = Ok (x1, c1) -> r2 = Ok (x2, c2) -> (x1, c1) = (x2, c2)) /\
  (~ returns_empty solver1 -> ~ returns_empty solver2 -> r1 = r2).
Proof.
  intros Hdx r1 r2.
  assert (Hsame : same_or_IndexError (returns_empty solver1) (returns_empty solver2) r1 r2).
  { subst r1 r2. destruct (Z.leb_spec maxiter 0) as [Hle | Hpos].
    - left. now rewrite !gn_degenerate.
    - rewrite !gn_snd by assumption. unfold gn_run.
      destruct (gn_loop_same norm lstsq f F
                  (rescaled_tol norm f F x0 tol) tol_normdx verbose
                  (or_default_linesearch linesearch) (or_default_trajectory trajectory)
                  solver1 solver2 Hdx (Z.to_nat maxiter - 1) 0%Z x0
                  (initial_grad f F x0))
        as [E | [[He E] | [He E]]]; rewrite E.
      + now left.
      + right; left; now split.
      + right; right; now split. }
  split.
  - intros x1 c1 x2 c2 E1 E2.
    destruct Hsame as [E | [[_ E] | [_ E]]]; congruence.
  - intros Hne1 Hne2. destruct Hsame as [E | [[He _] | [He _]]];
      [assumption | contradiction | contradiction].
Qed.

(** ** The directions and the iterates of a run *)

Lemma iterates_app {R} (t1 t2 : list (event R)) :
  iterates (t1 ++ t2) = iterates t1 ++ iterates t2.
Proof.
  induction t1 as [|e t1 IH]; [reflexivity|].
  destruct e; cbn; now rewrite IH.
Qed.

Section RunEvents.
Context {R : Type} `{Scalar R}.
Variable norm : vec R -> R.
Variable lstsq : mat R -> vec R -> result (vec R * list R).
Variable f : vec R -> vec R.
Variable F : vec R -> mat R.
Variable tol tol_normdx : R.
Variable verbose : Z.
Variable linesearch : linesearch_t (R:=R).
Variable trajectory : trajectory_t R.
Variable gnsolver : option (solver_t (R:=R)).

Lemma row_of_no_linesearch it v cond alpha g d y :
  ~ In (EvLineSearch g d y) (row_of norm verbose it v cond alpha).
Proof.
  unfold row_of. destruct (1 <=? verbose)%Z; cbn; [|tauto].
  intros [E | []]. discriminate.
Qed.


End RunEvents.

Lemma gn_fst {R : Type} `{Scalar R}
    (norm : vec R -> R) (lstsq : mat R -> vec R -> result (vec R * list R))
    (f : vec R -> vec R) (F : vec R -> mat R) (x0 : vec R) (tol tol_normdx : R)
    (maxiter : Z) (linesearch : option (linesearch_t (R:=R))) (verbose : Z)
    (trajectory : option (trajectory_t R)) (gnsolver : option (solver_t (R:=R))) :
  (0 < maxiter)%Z ->
  fst (gn norm lstsq f F x0 tol tol_normdx maxiter linesearch verbose trajectory gnsolver)
  = EvJacobian x0 :: EvResidual x0
      :: fst (gn_run norm lstsq f F x0 tol tol_normdx maxiter linesearch verbose
                trajectory gnsolver).
Proof.
  intros Hpos. rewrite gn_eq by assumption. rewrite fst_bind, eval_grad_eq.
  cbn [fst snd app]. rewrite fst_bind.
  destruct (snd (gn_run _ _ _ _ _ _ _ _ _ _ _ _)) as [v|e]; [|now rewrite app_nil_r].
  rewrite fst_bind. cbn. destruct (gn_info _ _ _ _ _); cbn; now rewrite app_nil_r.
Qed.











(** ** The properties on concrete inputs *)

(** C4, as stated, fails: with the zero gradient and the direction [1] the
    inner product is 0, so [inner(g, p) >= 0] holds, and [lnsrch_armijo]
    raises nothing: it searches and accepts the full step. *)
Lemma lnsrch_armijo_guard_counterexample :
  sgeb (inner [PrimFloat.zero] [PrimFloat.one]) szero = true /\
  lnsrch_armijo concave_objective [PrimFloat.zero] [PrimFloat.one] [PrimFloat.zero]
    (slit 0.5) (slit 1e-4) 40 None
  = Ok ([PrimFloat.one], PrimFloat.one, slit (-1)).
Proof. split; vm_compute; reflexivity. Qed.

Lemma lnsrch_armijo_guard_is_strict_witness :
  lnsrch_armijo concave_objective [PrimFloat.one] [PrimFloat.one] [PrimFloat.zero]
    (slit 0.5) (slit 1e-4) 40 None
  = Raise NotDescent.
Proof.
  exact (proj1 (@lnsrch_armijo_guard_is_strict float _ concave_objective
                  [PrimFloat.one] [PrimFloat.one] [PrimFloat.zero]
                  (slit 0.5) (slit 1e-4) 40%Z None) eq_refl).
Defined.



(** C5, as stated, fails: on binary64, for [f(x) = x^2], [F(x) = 2x] and
    [x0 = 0] with the default tolerances, the call returns the code 0, which
    is neither the step-size code 1 nor the no-progress code 3. *)
Lemma gn_zero_jacobian_counterexample :
  snd (gn float_norm lstsq_1x1 square_residual square_jacobian [PrimFloat.zero]
         (slit 1e-5) (slit 1e-12) 100 None 0 None None)
  = Ok ([PrimFloat.zero], 0%Z) /\
  (0 <> 1 /\ 0 <> 3)%Z.
Proof. split; [vm_compute; reflexivity | split; discriminate]. Qed.

(** C5, as amended.  On binary64, for [f(x) = x^2], [F(x) = 2x] and
    [x0 = 0] with the default tolerances: the gradient is zero, the test
    [inner(grad, dx) >= 0] holds and the direction becomes [-grad]; the
    line search is called with it and nothing is raised (the conditioning
    ratio 0/0 is a NaN, not an exception); the iterate is kept; and since
    the norm of the gradient, 0, is below the rescaled tolerance 1e-14,
    the call returns [x0] with the code 0. *)
Theorem gn_zero_jacobian_converged :
  let grad := initial_grad square_residual square_jacobian [PrimFloat.zero] in
  let dx := [PrimFloat.zero] in
  grad = [PrimFloat.zero] /\
  solve_direction lstsq_1x1 None (square_jacobian [PrimFloat.zero])
    (square_residual [PrimFloat.zero]) = Ok (dx, [PrimFloat.zero]) /\
  sgeb (inner grad dx) szero = true /\
  descent_or_gradient grad dx = vneg grad /\
  rescaled_tol float_norm square_residual square_jacobian [PrimFloat.zero] (slit 1e-5)
    = slit 1e-14 /\
  gn float_norm lstsq_1x1 square_residual square_jacobian [PrimFloat.zero]
    (slit 1e-5) (slit 1e-12) 100 None 0 None None
  = ([EvJacobian [PrimFloat.zero]; EvResidual [PrimFloat.zero];
      EvResidual [PrimFloat.zero]; EvJacobian [PrimFloat.zero];
      EvSolve [[PrimFloat.zero]] [PrimFloat.zero];
      EvLineSearch [PrimFloat.zero] [PrimFloat.neg_zero] [PrimFloat.zero];
      EvJacobian [PrimFloat.zero]; EvResidual [PrimFloat.zero]],
     Ok ([PrimFloat.zero], 0%Z)).
Proof. repeat split; vm_compute; reflexivity. Qed.

(** C9, as stated, fails for an empty sequence of singular values: of two
    runs on [f(x) = x - 5] from [x0 = 0] whose solvers return the same
    direction, the one whose solver returns no singular value stops on
    [s[0]], the other returns [x = 5] with the code 0. *)
Lemma gn_singular_values_counterexample :
  (forall F_eval f_eval,
     direction_of (solver_without_values F_eval f_eval)
     = direction_of (solver_with_values [PrimFloat.one] F_eval f_eval)) /\
  snd (gn float_norm lstsq_1x1 shift_residual shift_jacobian [PrimFloat.zero]
         (slit 1e-5) (slit 1e-12) 100 None 0 None (Some solver_without_values))
  = Raise IndexError /\
  snd (gn float_norm lstsq_1x1 shift_residual shift_jacobian [PrimFloat.zero]
         (slit 1e-5) (slit 1e-12) 100 None 0 None
         (Some (solver_with_values [PrimFloat.one])))
  = Ok ([slit 5], 0%Z).
Proof. repeat split; vm_compute; reflexivity. Qed.

Lemma gn_singular_values_irrelevant_witness :
  snd (gn float_norm lstsq_1x1 shift_residual shift_jacobian [PrimFloat.zero]
         (slit 1e-5) (slit 1e-12) 100 None 0 None
         (Some (solver_with_values [PrimFloat.one])))
  = snd (gn float_norm lstsq_1x1 shift_residual shift_jacobian [PrimFloat.zero]
           (slit 1e-5) (slit 1e-12) 100 None 0 None
           (Some (solver_with_values [PrimFloat.two; PrimFloat.one]))).
Proof.
  refine (proj2 (@gn_singular_values_irrelevant float _ float_norm lstsq_1x1
                   shift_residual shift_jacobian [PrimFloat.zero]
                   (slit 1e-5) (slit 1e-12) 100%Z None 0%Z None
                   (solver_with_values [PrimFloat.one])
                   (solver_with_values [PrimFloat.two; PrimFloat.one])
                   (fun _ _ => eq_refl)) _ _);
    intros (F_eval & f_eval & dx & E); discriminate.
Defined.



(** * Further properties of the line search *)

Section BacktrackTrials.
Context {R : Type} `{Scalar R}.
Variable f : vec R -> result R.
Variable trajectory : trajectory_t R.
Variables p x0 : vec R.
Variables fx0 dg bt_factor ftol : R.

Local Abbreviation loop := (backtrack f trajectory p x0 fx0 dg bt_factor ftol).
Local Abbreviation step := (step_from bt_factor).
Local Abbreviation accepted := (trial_accepted f trajectory p x0 fx0 dg ftol).
Local Abbreviation not_accepted := (trial_not_accepted f trajectory p x0 fx0 dg ftol).
Local Abbreviation raises := (trial_raises f trajectory p x0).

Lemma step_from_next alpha k :
  step (smul alpha bt_factor) k = step alpha (S k).
Proof.
  unfold step_from. induction k as [|k IH]; [reflexivity|].
  rewrite Nat.iter_succ, IH. reflexivity.
Qed.

(** Every trial ends in exactly one of four ways. *)
Lemma trial_cases alpha :
  (exists x fx, accepted alpha x fx) \/ not_accepted alpha \/
  (exists e, e <> BadStep /\ raises alpha e).
Proof.
  destruct (trajectory x0 p alpha) as [x|e] eqn:Et.
  - destruct (f x) as [fx|e] eqn:Ef.
    + destruct (sltb fx (sadd fx0 (smul (smul alpha ftol) dg))) eqn:Ea.
      * left. exists x, fx. repeat split; assumption.
      * right; left; right. exists x, fx. repeat split; assumption.
    + destruct e;
        try (right; right; eexists; split;
             [|right; exists x; split; eassumption]; discriminate).
      right; left; left; right. exists x. split; assumption.
  - destruct e;
      try (right; right; eexists; split; [|left; eassumption]; discriminate).
    right; left; left; left. assumption.
Qed.

Lemma backtrack_accept n alpha x fx :
  accepted alpha x fx -> loop (S n) alpha = Ok (Some (x, alpha, fx)).
Proof. intros (Et & Ef & Ea). cbn. now rewrite Et, Ef, Ea. Qed.

Lemma backtrack_skip n alpha :
  not_accepted alpha -> loop (S n) alpha = loop n (smul alpha bt_factor).
Proof.
  intros [Hr | Hf]; [now apply backtrack_rejected | now apply backtrack_failed].
Qed.

Lemma backtrack_raise n alpha e :
  e <> BadStep -> raises alpha e -> loop (S n) alpha = Raise e.
Proof.
  intros He [Et | (x & Et & Ef)]; cbn; rewrite Et; [|rewrite Ef];
    destruct e; congruence.
Qed.

(** The three outcomes of the loop, each with the trials that led to it. *)
Lemma backtrack_outcome n alpha :
  match loop n alpha with
  | Ok (Some (x, a, fx)) =>
      exists k, (k < n)%nat /\ a = step alpha k /\ accepted a x fx /\
                forall j, (j < k)%nat -> not_accepted (step alpha j)
  | Ok None => forall j, (j < n)%nat -> not_accepted (step alpha j)
  | Raise e =>
      e <> BadStep /\
      exists k, (k < n)%nat /\ raises (step alpha k) e /\
                forall j, (j < k)%nat -> not_accepted (step alpha j)
  end.
Proof.
  revert alpha. induction n as [|n IH]; intros alpha.
  - cbn. intros j Hj. lia.
  - destruct (trial_cases alpha) as [(x & fx & Ha) | [Hn | (e & He & Hr)]].
    + rewrite (backtrack_accept n Ha). exists 0%nat.
      repeat split; try apply Ha; [lia | intros j Hj; lia].
    + rewrite (backtrack_skip n Hn). specialize (IH (smul alpha bt_factor)).
      assert (Hshift : forall k, (forall j, (j < k)%nat ->
                not_accepted (step (smul alpha bt_factor) j)) ->
              forall j, (j < S k)%nat -> not_accepted (step alpha j)).
      { intros k Hk [|j] Hj; [exact Hn|]. rewrite <- step_from_next. apply Hk. lia. }
      destruct (loop n (smul alpha bt_factor)) as [[[[x a] fx]|]|e].
      * destruct IH as (k & Hk & -> & Ha & Hbefore). exists (S k).
        rewrite <- step_from_next. repeat split; try apply Ha; [lia|].
        now apply Hshift.
      * now apply Hshift.
      * destruct IH as (He & k & Hk & Hr & Hbefore). split; [exact He|].
        exists (S k). rewrite <- step_from_next. repeat split; auto; [lia|].
        now apply Hshift.
    + rewrite (backtrack_raise n He Hr). split; [exact He|]. exists 0%nat.
      repeat split; auto; [lia | intros j Hj; lia].
Qed.

(** Conversely, the trials decide the outcome. *)
Lemma backtrack_decided n alpha k :
  (k < n)%nat ->
  (forall j, (j < k)%nat -> not_accepted (step alpha j)) ->
  (forall x fx, accepted (step alpha k) x fx ->
     loop n alpha = Ok (Some (x, step alpha k, fx))) /\
  (forall e, e <> BadStep -> raises (step alpha k) e -> loop n alpha = Raise e).
Proof.
  revert n alpha. induction k as [|k IH]; intros n alpha Hk Hbefore;
    (destruct n as [|n]; [lia|]).
  - split; [intros x fx Ha; now apply backtrack_accept
           | intros e He Hr; now apply backtrack_raise].
  - assert (Hn : not_accepted alpha) by (apply (Hbefore 0%nat); lia).
    rewrite (backtrack_skip n Hn), <- step_from_next.
    apply IH; [lia|]. intros j Hj. rewrite step_from_next. apply Hbefore. lia.
Qed.
End BacktrackTrials.

Section LineSearchOutcomes.
Context {R : Type} `{Scalar R}.
Variable f : vec R -> result R.
Variables g p x0 : vec R.
Variables bt_factor ftol : R.
Variable maxiter : Z.
Variable trajectory : option (trajectory_t R).

Local Abbreviation tr := (or_default_trajectory trajectory).
Local Abbreviation dg := (inner g p).
Local Abbreviation step := (step_from bt_factor sone).

(** X1.  The step that [lnsrch_armijo] returns is the first acceptable
    one of the sequence [1, bt_factor, bt_factor^2, ...]: a call that
    returns [(x, alpha, fx)] either accepted the trial number [k], for some
    [k < maxiter], after every earlier trial was rejected or failed the
    Armijo test, and then [alpha] is the step of that trial,
    [x = trajectory(x0, p, alpha)] and [fx = f(x)]; or none of the
    [maxiter] trials was accepted, and then it returns [(x0, 0, f(x0))]. *)
Theorem lnsrch_armijo_first_acceptable x alpha fx :
  lnsrch_armijo f g p x0 bt_factor ftol maxiter trajectory = Ok (x, alpha, fx) ->
  sgtb dg szero = false /\
  exists fx0, f x0 = Ok fx0 /\
    ((exists k, (k < Z.to_nat maxiter)%nat /\ alpha = step k /\
        trial_accepted f tr p x0 fx0 dg ftol alpha x fx /\
        forall j, (j < k)%nat -> trial_not_accepted f tr p x0 fx0 dg ftol (step j)) \/
     ((x, alpha, fx) = (x0, szero, fx0) /\
      forall j, (j < Z.to_nat maxiter)%nat ->
        trial_not_accepted f tr p x0 fx0 dg ftol (step j))).
Proof.
  unfold lnsrch_armijo. destruct (sgtb dg szero); [discriminate|].
  destruct (f x0) as [fx0|e]; [|discriminate]. intros E.
  split; [reflexivity|]. exists fx0. split; [reflexivity|].
  pose proof (backtrack_outcome f tr p x0 fx0 dg bt_factor ftol
                (Z.to_nat maxiter) sone) as Hout.
  destruct (backtrack f tr p x0 fx0 dg bt_factor ftol (Z.to_nat maxiter) sone)
    as [[[[x' a'] fx']|]|e]; [| |discriminate].
  - injection E as -> -> ->. left. exact Hout.
  - injection E as <- <- <-. right. split; [reflexivity | exact Hout].
Qed.

(** X2.  What [lnsrch_armijo] raises, and when: the non-descent exception
    when [inner(g, p) > 0], before anything is evaluated; otherwise
    whatever [f(x0)] raises ([BadStep] included, line 45 is outside the
    [try]); otherwise the exception other than [BadStep] of the first
    trial that raises one, provided every trial before it was rejected or
    failed the Armijo test.  Nothing else. *)
Theorem lnsrch_armijo_raises e :
  lnsrch_armijo f g p x0 bt_factor ftol maxiter trajectory = Raise e <->
  (sgtb dg szero = true /\ e = NotDescent) \/
  (sgtb dg szero = false /\ f x0 = Raise e) \/
  (sgtb dg szero = false /\ e <> BadStep /\
   exists fx0 k, f x0 = Ok fx0 /\ (k < Z.to_nat maxiter)%nat /\
     trial_raises f tr p x0 (step k) e /\
     forall j, (j < k)%nat -> trial_not_accepted f tr p x0 fx0 dg ftol (step j)).
Proof.
  unfold lnsrch_armijo. destruct (sgtb dg szero).
  { split; [intros [= <-]; now left|].
    intros [[_ ->] | [[? _] | [? _]]]; [reflexivity | discriminate | discriminate]. }
  destruct (f x0) as [fx0|e0] eqn:E0.
  2:{ split; [intros [= ->]; right; now left|].
      intros [[? _] | [[_ [= ->]] | (_ & _ & fx0 & k & ? & _)]];
        [discriminate | reflexivity | discriminate]. }
  pose proof (backtrack_outcome f tr p x0 fx0 dg bt_factor ftol
                (Z.to_nat maxiter) sone) as Hout.
  split.
  - destruct (backtrack f tr p x0 fx0 dg bt_factor ftol (Z.to_nat maxiter) sone)
      as [[[[x' a'] fx']|]|e']; try discriminate.
    intros [= ->]. destruct Hout as (He & k & Hk & Hr & Hbefore).
    right; right. split; [reflexivity|]. split; [exact He|]. now exists fx0, k.
  - intros [[? _] | [[_ ?] | (_ & He & fx0' & k & [= <-] & Hk & Hr & Hbefore)]];
      try discriminate.
    destruct (@backtrack_decided R _ f tr p x0 fx0 dg bt_factor ftol
                (Z.to_nat maxiter) sone k Hk Hbefore) as [_ Hraise].
    now rewrite (Hraise e He Hr).
Qed.
End LineSearchOutcomes.



(** ** Binary64: a NaN in the Armijo test *)

Lemma float_is_nan_spec (a : float) :
  PrimFloat.is_nan a = true -> Prim2SF a = S754_nan.
Proof.
  unfold PrimFloat.is_nan. rewrite negb_true_iff, FloatAxioms.eqb_spec.
  unfold SFeqb. destruct (Prim2SF a) as [s|s| |s m e]; cbn; try discriminate.
  - destruct s; discriminate.
  - reflexivity.
  - rewrite Z.compare_refl, Pos.compare_cont_refl. destruct s; discriminate.
Qed.

Lemma float_add_nan (a b : float) :
  Prim2SF a = S754_nan \/ Prim2SF b = S754_nan -> Prim2SF (PrimFloat.add a b) = S754_nan.
Proof.
  rewrite FloatAxioms.add_spec. unfold SF64add, SFadd.
  intros [-> | ->]; [reflexivity|]. now destruct (Prim2SF a).
Qed.

Lemma float_mul_nan (a b : float) :
  Prim2SF a = S754_nan \/ Prim2SF b = S754_nan -> Prim2SF (PrimFloat.mul a b) = S754_nan.
Proof.
  rewrite FloatAxioms.mul_spec. unfold SF64mul, SFmul.
  intros [-> | ->]; [reflexivity|]. now destruct (Prim2SF a).
Qed.

Lemma float_ltb_nan (a b : float) :
  Prim2SF a = S754_nan \/ Prim2SF b = S754_nan -> PrimFloat.ltb a b = false.
Proof.
  rewrite FloatAxioms.ltb_spec. unfold SFltb, SFcompare.
  intros [-> | ->]; [reflexivity|]. now destruct (Prim2SF a).
Qed.

(** X4.  On binary64, when the objective at the starting point is a NaN,
    or the inner product of the gradient and the direction is, no trial
    can pass the Armijo test (every comparison with a NaN is false, and a
    NaN inner product passes the guard [dg > 0]): for callables that return
    or reject the step, the call fails softly, returning [(x0, 0, f(x0))]
    whatever the objective is elsewhere. *)
Theorem lnsrch_armijo_nan_fails
    (f : vec float -> result float) (g p x0 : vec float) (bt_factor ftol : float)
    (maxiter : Z) (trajectory : option (trajectory_t float)) (fx0 : float) :
  (forall x, raises_only_BadStep (f x)) ->
  (forall x d t, raises_only_BadStep (or_default_trajectory trajectory x d t)) ->
  f x0 = Ok fx0 ->
  (PrimFloat.is_nan fx0 = true /\ sgtb (inner g p) szero = false) \/
  PrimFloat.is_nan (inner g p) = true ->
  lnsrch_armijo f g p x0 bt_factor ftol maxiter trajectory = Ok (x0, szero, fx0).
Proof.
  intros Hf Ht E0 Hnan. unfold lnsrch_armijo.
  assert (sgtb (inner g p) szero = false) as ->.
  { destruct Hnan as [[_ Hg] | Hdg]; [exact Hg|].
    apply float_ltb_nan. right. now apply float_is_nan_spec. }
  rewrite E0.
  assert (Htest : forall alpha fx,
            sltb fx (sadd fx0 (smul (smul alpha ftol) (inner g p))) = false).
  { intros alpha fx. apply float_ltb_nan. right. apply float_add_nan.
    destruct Hnan as [[Hfx0 _] | Hdg].
    - left. now apply float_is_nan_spec.
    - right. apply float_mul_nan. right. now apply float_is_nan_spec. }
  pose proof (backtrack_outcome f (or_default_trajectory trajectory) p x0 fx0
                (inner g p) bt_factor ftol (Z.to_nat maxiter) sone) as Hout.
  destruct (backtrack f (or_default_trajectory trajectory) p x0 fx0 (inner g p)
              bt_factor ftol (Z.to_nat maxiter) sone) as [[[[x a] fx]|]|e].
  - destruct Hout as (k & _ & _ & (_ & _ & Ea) & _). rewrite Htest in Ea. discriminate.
  - reflexivity.
  - destruct Hout as (He & k & _ & [Hr | (x & _ & Hr)] & _); exfalso; apply He.
    + exact (Ht _ _ _ _ Hr).
    + exact (Hf _ _ Hr).
Qed.

Lemma lnsrch_armijo_nan_fails_witness :
  lnsrch_armijo sqrt_objective [slit (-1)] [PrimFloat.one] [slit (-1)]
    (slit 0.5) (slit 1e-4) 40 None
  = Ok ([slit (-1)], PrimFloat.zero, PrimFloat.sqrt (slit (-1))).
Proof.
  apply (@lnsrch_armijo_nan_fails sqrt_objective [slit (-1)] [PrimFloat.one]
           [slit (-1)] (slit 0.5) (slit 1e-4) 40%Z None (PrimFloat.sqrt (slit (-1)))).
  - intros x e E. discriminate.
  - intros x d t e E. discriminate.
  - reflexivity.
  - left. split; reflexivity.
Defined.

Lemma lnsrch_armijo_first_acceptable_witness :
  sgtb (inner [PrimFloat.zero] [PrimFloat.one]) szero = false /\
  exists fx0, concave_objective [PrimFloat.zero] = Ok fx0 /\
    ((exists k, (k < Z.to_nat 40)%nat /\ slit 0.25 = step_from (slit 0.5) sone k /\
        trial_accepted concave_objective
          (or_default_trajectory (Some short_steps_only)) [PrimFloat.one]
          [PrimFloat.zero] fx0 (inner [PrimFloat.zero] [PrimFloat.one]) (slit 1e-4)
          (slit 0.25) [slit 0.25] (slit (-0.0625)) /\
        forall j, (j < k)%nat ->
          trial_not_accepted concave_objective
            (or_default_trajectory (Some short_steps_only)) [PrimFloat.one]
            [PrimFloat.zero] fx0 (inner [PrimFloat.zero] [PrimFloat.one]) (slit 1e-4)
            (step_from (slit 0.5) sone j)) \/
     (([slit 0.25], slit 0.25, slit (-0.0625)) = ([PrimFloat.zero], szero, fx0) /\
      forall j, (j < Z.to_nat 40)%nat ->
        trial_not_accepted concave_objective
          (or_default_trajectory (Some short_steps_only)) [PrimFloat.one]
          [PrimFloat.zero] fx0 (inner [PrimFloat.zero] [PrimFloat.one]) (slit 1e-4)
          (step_from (slit 0.5) sone j))).
Proof.
  apply (@lnsrch_armijo_first_acceptable float _ concave_objective [PrimFloat.zero]
           [PrimFloat.one] [PrimFloat.zero] (slit 0.5) (slit 1e-4) 40%Z
           (Some short_steps_only) [slit 0.25] (slit 0.25) (slit (-0.0625))).
  vm_compute. reflexivity.
Defined.


(** * Further properties of the outer iteration *)

Ltac split5 := split; [|split; [|split; [|split]]].

Lemma count_nil {R} (kind : event R -> bool) : count kind [] = 0%nat.
Proof. reflexivity. Qed.

Lemma count_app {R} (kind : event R -> bool) (t1 t2 : list (event R)) :
  count kind (t1 ++ t2) = (count kind t1 + count kind t2)%nat.
Proof. unfold count. now rewrite filter_app, length_app. Qed.

Section CallCounts.
Context {R : Type} `{Scalar R}.
Variable norm : vec R -> R.
Variable lstsq : mat R -> vec R -> result (vec R * list R).
Variable f : vec R -> vec R.
Variable F : vec R -> mat R.
Variable tol tol_normdx : R.
Variable verbose : Z.
Variable linesearch : linesearch_t (R:=R).
Variable trajectory : trajectory_t R.
Variable gnsolver : option (solver_t (R:=R)).

Local Abbreviation body := (gn_body norm lstsq f F verbose linesearch trajectory gnsolver).
Local Abbreviation loop :=
  (gn_loop norm lstsq f F tol tol_normdx verbose linesearch trajectory gnsolver).

(** The calls of one iteration: the solver once; the line search at most
    once; the residual and the Jacobian at most twice each; and all of
    them in full when the iteration completes. *)
Lemma gn_body_counts it x grad :
  let t := fst (body it x grad) in
  count is_solve t = 1%nat /\
  (count is_linesearch t <= 1)%nat /\
  (count is_residual t <= 2)%nat /\
  (count is_jacobian t <= 2)%nat /\
  ((exists v, snd (body it x grad) = Ok v) ->
   count is_linesearch t = 1%nat /\ count is_residual t = 2%nat /\
   count is_jacobian t = 2%nat /\ iterates t = [x]).
Proof.
  cbn zeta. rewrite gn_body_eq.
  destruct (solve_direction lstsq gnsolver (F x) (f x)) as [[dx s]|e];
    [|cbn; (split; [|split; [|split; [|split]]]); try lia;
      intros [v E]; discriminate].
  rewrite gn_step_eq. destruct (cond_of s) as [c|e]; cbn [fst snd];
    [destruct (linesearch _ _ _ _ _) as [[[x_new alpha] fnew]|e]; cbn [fst snd]|];
    unfold row_of; destruct (all_finite dx); try destruct (1 <=? verbose)%Z; cbn;
    (split; [|split; [|split; [|split]]]); try lia;
    intros [v E]; try discriminate; repeat split; reflexivity.
Qed.

(** The calls of the loop, entered with [more] iterations left after the
    current one. *)
Lemma gn_loop_counts more it x grad :
  let t := fst (loop more it x grad) in
  (1 <= count is_solve t <= S more)%nat /\
  (count is_linesearch t <= count is_solve t)%nat /\
  (count is_residual t <= 2 * count is_solve t)%nat /\
  (count is_jacobian t <= 2 * count is_solve t)%nat /\
  (forall v, snd (loop more it x grad) = Ok v ->
   Z.of_nat (count is_solve t) = (lv_it v - it + 1)%Z /\
   count is_linesearch t = count is_solve t /\
   count is_residual t = (2 * count is_solve t)%nat /\
   count is_jacobian t = (2 * count is_solve t)%nat /\
   exists l x_last, iterates t = l ++ [x_last] /\
     (lv_residual_increased v = true -> lv_x v = x_last)).
Proof.
  cbn zeta. revert it x grad. induction more as [|more IH]; intros it x grad.
  all: rewrite gn_loop_eq, fst_bind, snd_bind, !count_app, iterates_app.
  all: destruct (gn_body_counts it x grad) as (Hs & Hl & Hr & Hj & Hfull);
    cbn zeta in Hs, Hl, Hr, Hj, Hfull.
  all: destruct (body it x grad) as [t [v|e]] eqn:Eb;
    cbn [fst snd] in Hs, Hl, Hr, Hj, Hfull |- *.
  all: try (rewrite !count_nil; split5; try lia; intros v' E; discriminate).
  all: destruct (Hfull (ex_intro _ v eq_refl)) as (Hl1 & Hr1 & Hj1 & Hit);
    apply gn_body_Ok in Eb;
    destruct Eb as (dx & s & x_new & alpha & fnew & _ & _ & _ & Ev).
  all: assert (Hlast : lv_it v = it /\
                (lv_residual_increased v = true -> lv_x v = x))
    by (subst v; cbn; split; [reflexivity|]; now intros ->).
  all: destruct Hlast as [Hvit Hkeep].
  all: destruct (gn_break tol tol_normdx v); cbn [ret fst snd];
    rewrite ?count_nil.
  all: try (split5; try lia; intros v' E; injection E as <-;
            split5; try lia; exists [], x; split; [now rewrite Hit | exact Hkeep]).
  specialize (IH (it + 1)%Z (lv_x v) (lv_grad v)).
  destruct IH as (IHs & IHl & IHr & IHj & IHfull).
  split5; try lia. intros v' Ev'.
  destruct (IHfull v' Ev') as (Hc & Hcl & Hcr & Hcj & l & x_last & Hl' & Hkeep').
  split5; try lia. exists (x :: l), x_last. rewrite Hit, Hl'. now split.
Qed.
End CallCounts.

Section RunProperties.
Context {R : Type} `{Scalar R}.
Variable norm : vec R -> R.
Variable lstsq : mat R -> vec R -> result (vec R * list R).
Variable f : vec R -> vec R.
Variable F : vec R -> mat R.
Variable x0 : vec R.
Variable tol tol_normdx : R.
Variable maxiter : Z.
Variable linesearch : option (linesearch_t (R:=R)).
Variable verbose : Z.
Variable trajectory : option (trajectory_t R).
Variable gnsolver : option (solver_t (R:=R)).

Local Abbreviation run :=
  (gn norm lstsq f F x0 tol tol_normdx maxiter linesearch verbose trajectory gnsolver).
Local Abbreviation the_loop :=
  (gn_run norm lstsq f F x0 tol tol_normdx maxiter linesearch verbose trajectory gnsolver).

(** X5.  A call that returns, returns a code from 0 to 4, and the code 4
    exactly when [maxiter <= 0], in which case the point is [x0]. *)
Theorem gn_code_range x info :
  snd (gn norm lstsq f F x0 tol tol_normdx maxiter linesearch verbose trajectory
         gnsolver) = Ok (x, info) ->
  (0 <= info <= 4)%Z /\ (info = 4%Z <-> (maxiter <= 0)%Z) /\
  ((maxiter <= 0)%Z -> x = x0).
Proof.
  destruct (Z.leb_spec maxiter 0) as [Hle | Hpos].
  - rewrite gn_degenerate by assumption. intros [= <- <-].
    repeat split; auto; lia.
  - rewrite gn_snd by assumption.
    destruct (snd the_loop) as [v|e]; [|discriminate].
    unfold gn_info. repeat case_if; intros [= <- <-]; repeat split; lia.
Qed.

(** X6.  How often a call calls its arguments: the direction solver at
    most [maxiter] times (and not at all for [maxiter <= 0]), the line
    search at most as often as the solver, and the residual and the
    Jacobian, outside the line search, at most once plus twice per call
    of the solver. *)
Theorem gn_call_bounds :
  (count is_solve (fst run) <= Z.to_nat maxiter)%nat /\
  (count is_linesearch (fst run) <= count is_solve (fst run))%nat /\
  (count is_residual (fst run) <= 1 + 2 * count is_solve (fst run))%nat /\
  (count is_jacobian (fst run) <= 1 + 2 * count is_solve (fst run))%nat.
Proof.
  destruct (Z.leb_spec maxiter 0) as [Hle | Hpos].
  - rewrite gn_degenerate by assumption. cbn. repeat split; lia.
  - rewrite gn_fst by assumption. unfold gn_run.
    destruct (gn_loop_counts norm lstsq f F
                (rescaled_tol norm f F x0 tol) tol_normdx verbose
                (or_default_linesearch linesearch) (or_default_trajectory trajectory)
                gnsolver (Z.to_nat maxiter - 1) 0%Z x0 (initial_grad f F x0))
      as (Hs & Hl & Hr & Hj & _).
    cbn zeta in Hs, Hl, Hr, Hj.
    change (count ?k (EvJacobian x0 :: EvResidual x0 :: ?t))
      with (count k [EvJacobian x0; EvResidual x0] + count k t)%nat.
    cbn [count filter is_solve is_linesearch is_residual is_jacobian length Nat.add].
    fold (count (@is_solve R)). fold (count (@is_linesearch R)).
    fold (count (@is_residual R)). fold (count (@is_jacobian R)).
    repeat split; lia.
Qed.

(** X7.  A call with [maxiter > 0] that returns has completed every
    iteration it began: the line search was called as often as the
    solver, the residual and the Jacobian once plus twice per iteration.
    The code 2 is returned only after all [maxiter] iterations, and the
    code 3 only when the last iteration kept its iterate: the point
    returned is the one at which the line search was called last. *)
Theorem gn_returning_run x info :
  (0 < maxiter)%Z ->
  snd run = Ok (x, info) ->
  (1 <= count is_solve (fst run))%nat /\
  count is_linesearch (fst run) = count is_solve (fst run) /\
  count is_residual (fst run) = (1 + 2 * count is_solve (fst run))%nat /\
  count is_jacobian (fst run) = (1 + 2 * count is_solve (fst run))%nat /\
  (info = 2%Z -> count is_solve (fst run) = Z.to_nat maxiter) /\
  (info = 3%Z -> exists l, iterates (fst run) = l ++ [x]).
Proof.
  intros Hpos. rewrite gn_fst, gn_snd by assumption. unfold gn_run.
  destruct (gn_loop_counts norm lstsq f F
              (rescaled_tol norm f F x0 tol) tol_normdx verbose
              (or_default_linesearch linesearch) (or_default_trajectory trajectory)
              gnsolver (Z.to_nat maxiter - 1) 0%Z x0 (initial_grad f F x0))
    as (Hs & _ & _ & _ & Hfull).
  cbn zeta in Hs, Hfull.
  pose proof (fun t v => @gn_loop_exit R _ norm lstsq f F
                (rescaled_tol norm f F x0 tol) tol_normdx verbose
                (or_default_linesearch linesearch) (or_default_trajectory trajectory)
                gnsolver (Z.to_nat maxiter - 1) 0%Z x0 (initial_grad f F x0) t v)
    as Hexit.
  destruct (gn_loop norm lstsq f F (rescaled_tol norm f F x0 tol) tol_normdx verbose
              (or_default_linesearch linesearch) (or_default_trajectory trajectory)
              gnsolver (Z.to_nat maxiter - 1) 0%Z x0 (initial_grad f F x0))
    as [t [v|e]]; cbn [fst snd] in *; [|discriminate].
  destruct (Hfull v eq_refl) as (Hc & Hl & Hr & Hj & l & x_last & Hiter & Hkeep).
  destruct (Hexit t v eq_refl) as [_ Hri].
  change (count ?k (EvJacobian x0 :: EvResidual x0 :: t))
    with (count k [EvJacobian x0; EvResidual x0] + count k t)%nat.
  cbn [count filter is_solve is_linesearch is_residual is_jacobian length Nat.add
       iterates].
  fold (count (@is_solve R)). fold (count (@is_linesearch R)).
  fold (count (@is_residual R)). fold (count (@is_jacobian R)).
  unfold gn_info. repeat case_if; intros [= <- <-];
    (split; [|split; [|split; [|split; [|split]]]]); try lia;
    try (intros [=]; fail).
  intros _. exists l. rewrite Hiter, Hkeep; [reflexivity | exact Hri].
Qed.
End RunProperties.

Section LineSearchCalls.
Context {R : Type} `{Scalar R}.
Variable norm : vec R -> R.
Variable lstsq : mat R -> vec R -> result (vec R * list R).
Variable f : vec R -> vec R.
Variable F : vec R -> mat R.
Variable tol tol_normdx : R.
Variable verbose : Z.
Variable linesearch : linesearch_t (R:=R).
Variable trajectory : trajectory_t R.
Variable gnsolver : option (solver_t (R:=R)).

Local Abbreviation body := (gn_body norm lstsq f F verbose linesearch trajectory gnsolver).
Local Abbreviation loop :=
  (gn_loop norm lstsq f F tol tol_normdx verbose linesearch trajectory gnsolver).
Local Abbreviation solved x := (solve_direction lstsq gnsolver (F x) (f x)).

Lemma gn_body_linesearch_direction it x grad g d y :
  In (EvLineSearch g d y) (fst (body it x grad)) ->
  g = grad /\ y = x /\
  exists dx s, solved x = Ok (dx, s) /\ d = descent_or_gradient grad dx.
Proof.
  rewrite gn_body_eq. destruct (solve_direction _ _ _ _) as [[dx s]|e];
    [|cbn; intros Hin;
      repeat (destruct Hin as [E | Hin]; try discriminate); contradiction].
  rewrite gn_step_eq. destruct (cond_of s) as [c|e]; cbn.
  - destruct (linesearch _ _ _ _ _) as [[[x_new alpha] fnew]|e]; cbn;
      destruct (all_finite dx); cbn; intros Hin;
      repeat (destruct Hin as [E | Hin]; try discriminate;
              try (injection E as <- <- <-; eauto 6));
      try contradiction;
      now apply row_of_no_linesearch in Hin.
  - destruct (all_finite dx); cbn; intros Hin;
      repeat (destruct Hin as [E | Hin]; try discriminate); contradiction.
Qed.

(** The loop keeps [grad] equal to the gradient at [x]. *)
Lemma gn_loop_linesearch_arguments more it x g d y :
  In (EvLineSearch g d y) (fst (loop more it x (Tdot (F x) (f x)))) ->
  g = Tdot (F y) (f y) /\
  exists dx s, solved y = Ok (dx, s) /\ d = descent_or_gradient g dx.
Proof.
  revert it x. induction more as [|more IH]; intros it x;
    rewrite gn_loop_eq, fst_bind, in_app_iff; intros [Hin | Hin];
    try (apply gn_body_linesearch_direction in Hin;
         destruct Hin as (-> & -> & Hd); split; [reflexivity | exact Hd]);
    destruct (body it x (Tdot (F x) (f x))) as [t [v|e]] eqn:Eb; cbn [snd] in Hin;
    try contradiction;
    destruct (gn_break tol tol_normdx v); try contradiction.
  apply gn_body_Ok in Eb.
  destruct Eb as (dx & s & x_new & alpha & fnew & _ & _ & _ & ->).
  exact (IH _ _ Hin).
Qed.

End LineSearchCalls.

Section RunCalls.
Context {R : Type} `{Scalar R}.
Variable norm : vec R -> R.
Variable lstsq : mat R -> vec R -> result (vec R * list R).
Variable f : vec R -> vec R.
Variable F : vec R -> mat R.
Variable x0 : vec R.
Variable tol tol_normdx : R.
Variable maxiter : Z.
Variable linesearch : option (linesearch_t (R:=R)).
Variable verbose : Z.
Variable trajectory : option (trajectory_t R).
Variable gnsolver : option (solver_t (R:=R)).

Local Abbreviation run :=
  (gn norm lstsq f F x0 tol tol_normdx maxiter linesearch verbose trajectory gnsolver).
Local Abbreviation the_loop :=
  (gn_run norm lstsq f F x0 tol tol_normdx maxiter linesearch verbose trajectory gnsolver).
Local Abbreviation solved x := (solve_direction lstsq gnsolver (F x) (f x)).

(** When the loop is left, the classification finds a code. *)
Lemma gn_info_Ok t v :
  (forall a b : R, sltb a b = true -> sleb a b = true) ->
  (0 < maxiter)%Z ->
  the_loop = (t, Ok v) ->
  exists info,
    gn_info norm (rescaled_tol norm f F x0 tol) tol_normdx maxiter v = Ok info.
Proof.
  intros Hlt_le Hpos E. apply gn_loop_exit in E. destruct E as [Hexit Hri].
  unfold gn_info. repeat case_if; eauto. exfalso.
  destruct Hexit as [Hb | Hit].
  - unfold gn_break in Hb. rewrite Hri in Hb.
    destruct (sltb (lv_normgrad v) _) eqn:E1; [apply Hlt_le in E1; congruence|].
    destruct (sltb (lv_normdx v) _) eqn:E2; [apply Hlt_le in E2; congruence|].
    congruence.
  - lia.
Qed.

(** X8.  Every call of the line search by [gn] is determined by the
    iterate [x] at which it is made: the gradient handed over is
    [F(x).T.dot(f(x))], and the direction is the one the solver returns for
    [(F(x), f(x))], or the negated gradient. *)
Theorem gn_linesearch_arguments g d x :
  In (EvLineSearch g d x) (fst run) ->
  g = Tdot (F x) (f x) /\
  exists dx s, solved x = Ok (dx, s) /\
    d = descent_or_gradient g dx /\
    (d = dx \/ d = vneg g).
Proof.
  destruct (Z.leb_spec maxiter 0) as [Hle | Hpos].
  - rewrite gn_degenerate by assumption. intros [].
  - rewrite gn_fst by assumption. intros [E | [E | Hin]]; try discriminate.
    apply gn_loop_linesearch_arguments in Hin.
    destruct Hin as (Hg & dx & s & Hs & Hd).
    split; [exact Hg|]. exists dx, s. repeat split; auto.
    rewrite Hd. unfold descent_or_gradient. case_if; auto.
Qed.

End RunCalls.

Lemma gn_linesearch_arguments_witness :
  [slit (-5)] = Tdot (shift_jacobian [PrimFloat.zero]) (shift_residual [PrimFloat.zero]) /\
  exists dx s,
    solve_direction lstsq_1x1 None (shift_jacobian [PrimFloat.zero])
      (shift_residual [PrimFloat.zero]) = Ok (dx, s) /\
    [slit 5] = descent_or_gradient [slit (-5)] dx /\
    ([slit 5] = dx \/ [slit 5] = vneg [slit (-5)]).
Proof.
  apply (@gn_linesearch_arguments float _ float_norm lstsq_1x1 shift_residual
           shift_jacobian [PrimFloat.zero] (slit 1e-5) (slit 1e-12) 100%Z None 0%Z
           None None [slit (-5)] [slit 5] [PrimFloat.zero]).
  vm_compute. do 5 right. left. reflexivity.
Defined.





(** ** The verbose table is observational *)

Lemma strip_rows_app {R} (t1 t2 : list (event R)) :
  strip_rows (t1 ++ t2) = strip_rows t1 ++ strip_rows t2.
Proof. apply filter_app. Qed.

Section Verbose.
Context {R : Type} `{Scalar R}.
Variable norm : vec R -> R.
Variable lstsq : mat R -> vec R -> result (vec R * list R).
Variable f : vec R -> vec R.
Variable F : vec R -> mat R.
Variable tol tol_normdx : R.
Variable linesearch : linesearch_t (R:=R).
Variable trajectory : trajectory_t R.
Variable gnsolver : option (solver_t (R:=R)).

Local Abbreviation body verbose :=
  (gn_body norm lstsq f F verbose linesearch trajectory gnsolver).
Local Abbreviation loop verbose :=
  (gn_loop norm lstsq f F tol tol_normdx verbose linesearch trajectory gnsolver).

Lemma gn_body_verbose verbose it x grad :
  snd (body verbose it x grad) = snd (body 0%Z it x grad) /\
  strip_rows (fst (body verbose it x grad)) = fst (body 0%Z it x grad).
Proof.
  rewrite !gn_body_eq.
  destruct (solve_direction lstsq gnsolver (F x) (f x)) as [[dx s]|e];
    [|split; reflexivity].
  rewrite !gn_step_eq. destruct (cond_of s) as [c|e]; cbn [fst snd].
  - destruct (linesearch _ _ _ _ _) as [[[x_new alpha] fnew]|e]; cbn [fst snd];
      unfold row_of; destruct (all_finite dx); destruct (1 <=? verbose)%Z;
      split; reflexivity.
  - destruct (all_finite dx); split; reflexivity.
Qed.

Lemma gn_loop_verbose verbose more it x grad :
  snd (loop verbose more it x grad) = snd (loop 0%Z more it x grad) /\
  strip_rows (fst (loop verbose more it x grad)) = fst (loop 0%Z more it x grad).
Proof.
  revert it x grad. induction more as [|more IH]; intros it x grad;
    rewrite !gn_loop_eq, !fst_bind, !snd_bind, strip_rows_app;
    destruct (gn_body_verbose verbose it x grad) as [-> ->];
    destruct (snd (body 0%Z it x grad)) as [v|e]; try (split; reflexivity);
    destruct (gn_break tol tol_normdx v); try (split; reflexivity).
  destruct (IH (it + 1)%Z (lv_x v) (lv_grad v)) as [-> ->]. split; reflexivity.
Qed.

Lemma gn_loop_no_rows verbose more it x grad :
  (verbose < 1)%Z -> count is_row (fst (loop verbose more it x grad)) = 0%nat.
Proof.
  intros Hlt. revert it x grad. induction more as [|more IH]; intros it x grad;
    rewrite gn_loop_eq, fst_bind, count_app, gn_body_eq;
    (destruct (solve_direction lstsq gnsolver (F x) (f x)) as [[dx s]|e0];
     [|reflexivity]);
    rewrite gn_step_eq; unfold row_of;
    destruct (Z.leb_spec 1 verbose) as [Hge|_]; try lia;
    destruct (cond_of s) as [c|e]; cbn [fst snd];
    try (destruct (all_finite dx); reflexivity);
    destruct (linesearch _ _ _ _ _) as [[[x_new alpha] fnew]|e]; cbn [fst snd];
    try (destruct (all_finite dx); reflexivity);
    destruct (gn_break _ _ _); try (destruct (all_finite dx); reflexivity).
  rewrite IH. destruct (all_finite dx); reflexivity.
Qed.
End Verbose.

(** X11.  The argument [verbose] only adds rows of the table to the
    output: two calls that differ in [verbose] alone have the same outcome
    (the point and the code, or the exception), and the same events once
    the rows are taken away; with [verbose < 1] there are no rows. *)
Theorem gn_verbose_observational {R : Type} `{Scalar R}
    (norm : vec R -> R) (lstsq : mat R -> vec R -> result (vec R * list R))
    (f : vec R -> vec R) (F : vec R -> mat R) (x0 : vec R) (tol tol_normdx : R)
    (maxiter : Z) (linesearch : option (linesearch_t (R:=R)))
    (trajectory : option (trajectory_t R)) (gnsolver : option (solver_t (R:=R)))
    (verbose1 verbose2 : Z) :
  let run verbose :=
    gn norm lstsq f F x0 tol tol_normdx maxiter linesearch verbose trajectory gnsolver in
  snd (run verbose1) = snd (run verbose2) /\
  strip_rows (fst (run verbose1)) = strip_rows (fst (run verbose2)) /\
  ((verbose1 < 1)%Z -> count is_row (fst (run verbose1)) = 0%nat).
Proof.
  intros run. subst run. cbn beta.
  assert (Hzero : forall verbose,
    snd (gn norm lstsq f F x0 tol tol_normdx maxiter linesearch verbose trajectory
           gnsolver)
    = snd (gn norm lstsq f F x0 tol tol_normdx maxiter linesearch 0 trajectory gnsolver)
    /\
    strip_rows (fst (gn norm lstsq f F x0 tol tol_normdx maxiter linesearch verbose
                       trajectory gnsolver))
    = fst (gn norm lstsq f F x0 tol tol_normdx maxiter linesearch 0 trajectory
             gnsolver)).
  { intros verbose. destruct (Z.leb_spec maxiter 0) as [Hle | Hpos].
    - rewrite !gn_degenerate by assumption. split; reflexivity.
    - rewrite !gn_fst, !gn_snd by assumption. unfold gn_run.
      destruct (gn_loop_verbose norm lstsq f F (rescaled_tol norm f F x0 tol)
                  tol_normdx (or_default_linesearch linesearch)
                  (or_default_trajectory trajectory) gnsolver verbose
                  (Z.to_nat maxiter - 1) 0%Z x0 (initial_grad f F x0)) as [-> Hfst].
      split; [reflexivity|].
      change (strip_rows (EvJacobian x0 :: EvResidual x0 :: ?t))
        with (EvJacobian x0 :: EvResidual x0 :: strip_rows t).
      now rewrite Hfst. }
  destruct (Hzero verbose1) as [Hs1 Hf1]. destruct (Hzero verbose2) as [Hs2 Hf2].
  split; [congruence|]. split; [congruence|].
  intros Hlt. destruct (Z.leb_spec maxiter 0) as [Hle | Hpos].
  - rewrite gn_degenerate by assumption. reflexivity.
  - rewrite gn_fst by assumption. unfold gn_run.
    change (count ?k (EvJacobian x0 :: EvResidual x0 :: ?t)) with (count k t).
    now apply gn_loop_no_rows.
Qed.

(** ** What the code 0 certifies *)

Section Certificate.
Context {R : Type} `{Scalar R}.
Variable norm : vec R -> R.
Variable lstsq : mat R -> vec R -> result (vec R * list R).
Variable f : vec R -> vec R.
Variable F : vec R -> mat R.
Variable tol tol_normdx : R.
Variable verbose : Z.
Variable linesearch : linesearch_t (R:=R).
Variable trajectory : trajectory_t R.
Variable gnsolver : option (solver_t (R:=R)).

(** When the loop is left, [normgrad] is the norm of the gradient at the
    iterate it is left with. *)
Lemma gn_loop_gradient more it x grad t v :
  gn_loop norm lstsq f F tol tol_normdx verbose linesearch trajectory gnsolver
    more it x grad = (t, Ok v) ->
  lv_normgrad v = norm (Tdot (F (lv_x v)) (f (lv_x v))).
Proof.
  revert it x grad t. induction more as [|more IH]; intros it x grad t;
    rewrite gn_loop_eq; intros E; apply bind_Ok_inv in E;
    destruct E as (t1 & v1 & t2 & Eb & Ek & _);
    apply gn_body_Ok in Eb; destruct Eb as (dx & s & xn & a & fn & _ & _ & _ & Ev).
  - assert (v = v1) as -> by (destruct (gn_break _ _ v1); now injection Ek).
    subst v1. reflexivity.
  - destruct (gn_break tol tol_normdx v1).
    + injection Ek as _ <-. subst v1. reflexivity.
    + exact (IH _ _ _ _ Ek).
Qed.
End Certificate.

(** X12.  A call with [maxiter > 0] returns the code 0 exactly when the
    norm of the gradient [F(x).T.dot(f(x))] at the point [x] it returns is
    at most the rescaled tolerance [max(tol * ||grad(x0)||, 1e-14)]. *)
Theorem gn_converged_certificate {R : Type} `{Scalar R}
    (norm : vec R -> R) (lstsq : mat R -> vec R -> result (vec R * list R))
    (f : vec R -> vec R) (F : vec R -> mat R) (x0 : vec R) (tol tol_normdx : R)
    (maxiter : Z) (linesearch : option (linesearch_t (R:=R))) (verbose : Z)
    (trajectory : option (trajectory_t R)) (gnsolver : option (solver_t (R:=R)))
    (x : vec R) (info : Z) :
  (0 < maxiter)%Z ->
  snd (gn norm lstsq f F x0 tol tol_normdx maxiter linesearch verbose trajectory
         gnsolver) = Ok (x, info) ->
  (info = 0%Z <->
   sleb (norm (Tdot (F x) (f x))) (rescaled_tol norm f F x0 tol) = true).
Proof.
  intros Hpos. rewrite gn_snd by assumption.
  destruct (gn_run norm lstsq f F x0 tol tol_normdx maxiter linesearch verbose
              trajectory gnsolver) as [t [v|e]] eqn:El; cbn [snd]; [|discriminate].
  unfold gn_run in El. apply gn_loop_gradient in El.
  unfold gn_info. repeat case_if; intros [= <- <-]; rewrite <- El;
    split; congruence.
Qed.

Lemma gn_converged_certificate_witness :
  0%Z = 0%Z <->
  sleb (float_norm (Tdot (shift_jacobian [slit 5]) (shift_residual [slit 5])))
       (rescaled_tol float_norm shift_residual shift_jacobian [PrimFloat.zero]
          (slit 1e-5)) = true.
Proof.
  apply (@gn_converged_certificate float _ float_norm lstsq_1x1 shift_residual
           shift_jacobian [PrimFloat.zero] (slit 1e-5) (slit 1e-12) 100%Z None 0%Z
           None None [slit 5] 0%Z).
  - reflexivity.
  - vm_compute. reflexivity.
Defined.




Lemma gn_code_range_witness :
  (0 <= 0 <= 4)%Z /\ (0%Z = 4%Z <-> (100 <= 0)%Z) /\
  ((100 <= 0)%Z -> [slit 5] = [PrimFloat.zero]).
Proof.
  apply (@gn_code_range float _ float_norm lstsq_1x1 shift_residual shift_jacobian
           [PrimFloat.zero] (slit 1e-5) (slit 1e-12) 100%Z None 0%Z None None
           [slit 5] 0%Z).
  vm_compute. reflexivity.
Defined.

Lemma gn_returning_run_witness :
  let t := fst (gn float_norm lstsq_1x1 shift_residual shift_jacobian [PrimFloat.zero]
                  (slit 1e-5) (slit 1e-12) 100 None 0 None
                  (Some infinite_solver)) in
  (1 <= count is_solve t)%nat /\
  count is_linesearch t = count is_solve t /\
  count is_residual t = (1 + 2 * count is_solve t)%nat /\
  count is_jacobian t = (1 + 2 * count is_solve t)%nat /\
  (3%Z = 2%Z -> count is_solve t = Z.to_nat 100) /\
  (3%Z = 3%Z -> exists l, iterates t = l ++ [[PrimFloat.zero]]).
Proof.
  apply (@gn_returning_run float _ float_norm lstsq_1x1 shift_residual shift_jacobian
           [PrimFloat.zero] (slit 1e-5) (slit 1e-12) 100%Z None 0%Z None
           (Some infinite_solver) [PrimFloat.zero] 3%Z).
  - reflexivity.
  - vm_compute. reflexivity.
Defined.

(** * Binary64: the order, the signs and the rounding of a sum

    From the specification of the floating-point operations
    ([SpecFloat], [FloatAxioms]). *)

Unset Implicit Arguments.

Section Binary64.
Local Open Scope Z_scope.


















Section Signs.
Variables prec emax : Z.








End Signs.





(** The number of binary digits. *)
Lemma digits2_pos_bounds (p : positive) :
  2 ^ (Zpos (digits2_pos p) - 1) <= Zpos p < 2 ^ Zpos (digits2_pos p).
Proof.
  induction p as [p IH|p IH|]; cbn [digits2_pos].
  - rewrite Pos2Z.inj_succ.
    replace (Z.succ (Zpos (digits2_pos p)) - 1) with (Z.succ (Zpos (digits2_pos p) - 1)) by lia.
    rewrite !Z.pow_succ_r by lia. lia.
  - rewrite Pos2Z.inj_succ.
    replace (Z.succ (Zpos (digits2_pos p)) - 1) with (Z.succ (Zpos (digits2_pos p) - 1)) by lia.
    rewrite !Z.pow_succ_r by lia. lia.
  - cbn. lia.
Qed.

Lemma Zdigits2_nonneg (m : Z) : 0 <= Zdigits2 m.
Proof. destruct m; cbn; lia. Qed.

Lemma Zdigits2_bounds (m : Z) :
  0 < m -> 2 ^ (Zdigits2 m - 1) <= m < 2 ^ Zdigits2 m.
Proof. destruct m as [|p|p]; try lia. intros _. apply digits2_pos_bounds. Qed.


Lemma Zdigits2_ge_pow (m k : Z) : 0 <= k -> 2 ^ k <= m -> k < Zdigits2 m.
Proof.
  intros Hk Hle. assert (0 < 2 ^ k) by (apply Z.pow_pos_nonneg; lia).
  destruct (Zdigits2_bounds m ltac:(lia)) as [_ Hhi].
  destruct (Z.lt_ge_cases k (Zdigits2 m)) as [|Hge]; [assumption|].
  assert (2 ^ Zdigits2 m <= 2 ^ k) by (apply Z.pow_le_mono_r; lia). lia.
Qed.






Section Rounding.
Variables prec emax : Z.
Hypothesis prec_pos : 0 < prec.

Local Abbreviation fexp := (SpecFloat.fexp prec emax).
Local Abbreviation emin := (SpecFloat.emin prec emax).





End Rounding.




Section Monotone.
Variables prec emax : Z.
Hypothesis prec_pos : 0 < prec.

Local Abbreviation fexp := (SpecFloat.fexp prec emax).
Local Abbreviation emin := (SpecFloat.emin prec emax).



End Monotone.


Section AddNonpos.
Variables prec emax : Z.
Hypothesis prec_pos : 0 < prec.




End AddNonpos.

End Binary64.

Set Implicit Arguments.

(** * The line search, again *)

Section LineSearchTrials.
Context {R : Type} `{Scalar R}.


Lemma steps_in_range_fewer (bt_factor : R) (n m : nat) :
  (n <= m)%nat -> steps_in_range bt_factor m = true -> steps_in_range bt_factor n = true.
Proof.
  unfold steps_in_range. rewrite !forallb_forall. intros Hle Hall k Hk.
  apply Hall. apply in_seq. apply in_seq in Hk. lia.
Qed.

(** A call that passes the guard and evaluates [f(x0)] is decided by its
    trials. *)
Lemma lnsrch_armijo_decided
    (f : vec R -> result R) (g p x0 : vec R) (bt_factor ftol : R) (maxiter : Z)
    (trajectory : option (trajectory_t R)) (fx0 : R) :
  sgtb (inner g p) szero = false -> f x0 = Ok fx0 ->
  let tr := or_default_trajectory trajectory in
  let step := step_from bt_factor sone in
  (forall k x fx,
     (k < Z.to_nat maxiter)%nat ->
     (forall j, (j < k)%nat ->
        trial_not_accepted f tr p x0 fx0 (inner g p) ftol (step j)) ->
     trial_accepted f tr p x0 fx0 (inner g p) ftol (step k) x fx ->
     lnsrch_armijo f g p x0 bt_factor ftol maxiter trajectory = Ok (x, step k, fx)) /\
  ((forall j, (j < Z.to_nat maxiter)%nat ->
      trial_not_accepted f tr p x0 fx0 (inner g p) ftol (step j)) ->
   lnsrch_armijo f g p x0 bt_factor ftol maxiter trajectory = Ok (x0, szero, fx0)).
Proof.
  intros Hg E0 tr step. subst tr step. unfold lnsrch_armijo. rewrite Hg, E0. split.
  - intros k x fx Hk Hbefore Hacc.
    destruct (@backtrack_decided R _ f (or_default_trajectory trajectory) p x0 fx0
                (inner g p) bt_factor ftol (Z.to_nat maxiter) sone k Hk Hbefore)
      as [Hdec _].
    now rewrite (Hdec x fx Hacc).
  - intros Hall.
    pose proof (backtrack_outcome f (or_default_trajectory trajectory) p x0 fx0
                  (inner g p) bt_factor ftol (Z.to_nat maxiter) sone) as Hout.
    destruct (backtrack f (or_default_trajectory trajectory) p x0 fx0 (inner g p)
                bt_factor ftol (Z.to_nat maxiter) sone)
      as [[[[x a] fx]|]|e]; [| reflexivity |]; exfalso.
    + destruct Hout as (k & Hk & -> & (Et & Ef & Ea) & _).
      destruct (Hall k Hk) as [[Er | (y & Ey & Er)] | (y & fy & Ey & Efy & Ea')];
        congruence.
    + destruct Hout as (He & k & Hk & Hr & _).
      destruct (Hall k Hk) as [[Er | (y & Ey & Er)] | (y & fy & Ey & Efy & Ea')];
        destruct Hr as [Hr | (y' & Ey' & Hr)]; congruence.
Qed.

End LineSearchTrials.

(** C7.  A trial of the backtracking loop that raises [BadStep] (in the
    trajectory or in the objective) is caught and treated as a trial that
    fails the Armijo test: the loop goes on with [alpha * bt_factor], the
    same equation in both cases, and never lets [BadStep] out; the only
    [BadStep] that [lnsrch_armijo] can raise is that of [f(x0)] on line 45,
    before the loop.  So the search continues over such trials: when the
    trials [0 .. k-1] raise [BadStep] or fail the test and the trial [k],
    with [k < maxiter], passes it, the call returns the point, the step
    [bt_factor^k] and the value of that trial; and when all [maxiter]
    trials raise [BadStep] or fail, it returns [(x0, 0, f(x0))]. *)
Theorem lnsrch_armijo_catches_BadStep {R : Type} `{Scalar R}
    (f : vec R -> result R) (g p x0 : vec R) (bt_factor ftol : R) (maxiter : Z)
    (trajectory : option (trajectory_t R)) :
  let tr := or_default_trajectory trajectory in
  let step := step_from bt_factor sone in
  (forall fx0 dg n alpha,
     step_rejected f tr p x0 alpha ->
     backtrack f tr p x0 fx0 dg bt_factor ftol (S n) alpha =
     backtrack f tr p x0 fx0 dg bt_factor ftol n (smul alpha bt_factor)) /\
  (forall fx0 dg n alpha,
     armijo_failed f tr p x0 fx0 dg ftol alpha ->
     backtrack f tr p x0 fx0 dg bt_factor ftol (S n) alpha =
     backtrack f tr p x0 fx0 dg bt_factor ftol n (smul alpha bt_factor)) /\
  (forall fx0 dg n alpha,
     backtrack f tr p x0 fx0 dg bt_factor ftol n alpha <> Raise BadStep) /\
  (lnsrch_armijo f g p x0 bt_factor ftol maxiter trajectory = Raise BadStep ->
     f x0 = Raise BadStep) /\
  (forall fx0 k x fx,
     sgtb (inner g p) szero = false -> f x0 = Ok fx0 ->
     (k < Z.to_nat maxiter)%nat ->
     (forall j, (j < k)%nat ->
        trial_not_accepted f tr p x0 fx0 (inner g p) ftol (step j)) ->
     trial_accepted f tr p x0 fx0 (inner g p) ftol (step k) x fx ->
     lnsrch_armijo f g p x0 bt_factor ftol maxiter trajectory = Ok (x, step k, fx)) /\
  (forall fx0,
     sgtb (inner g p) szero = false -> f x0 = Ok fx0 ->
     (forall j, (j < Z.to_nat maxiter)%nat ->
        trial_not_accepted f tr p x0 fx0 (inner g p) ftol (step j)) ->
     lnsrch_armijo f g p x0 bt_factor ftol maxiter trajectory = Ok (x0, szero, fx0)).
Proof.
  intros tr step. split; [|split; [|split; [|split; [|split]]]].
  - intros. now apply backtrack_rejected.
  - intros. now apply backtrack_failed.
  - intros. apply backtrack_no_BadStep.
  - unfold lnsrch_armijo. fold tr.
    destruct (sgtb _ _); [discriminate|].
    destruct (f x0) as [fx0|e]; [|now intros [= ->]].
    destruct (backtrack _ _ _ _ _ _ _ _ _ _) as [[[[x a] fx]|]|e] eqn:E; try discriminate.
    intros [= ->]. now apply backtrack_no_BadStep in E.
  - intros fx0 k x fx Hg E0.
    exact (proj1 (lnsrch_armijo_decided f g p x0 bt_factor ftol maxiter trajectory Hg E0)
             k x fx).
  - intros fx0 Hg E0.
    exact (proj2 (lnsrch_armijo_decided f g p x0 bt_factor ftol maxiter trajectory Hg E0)).
Qed.

(** With a trajectory that rejects the steps 1 and 0.5, the search for
    [f(x) = -x^2] from 0 along 1 goes on to the step 0.25 and returns
    it. *)
Lemma lnsrch_armijo_catches_BadStep_witness :
  lnsrch_armijo concave_objective [PrimFloat.zero] [PrimFloat.one] [PrimFloat.zero]
    (slit 0.5) (slit 1e-4) 40 (Some short_steps_only)
  = Ok ([slit 0.25], slit 0.25, slit (-0.0625)).
Proof.
  refine (proj1 (proj2 (proj2 (proj2 (proj2
    (@lnsrch_armijo_catches_BadStep float _ concave_objective
       [PrimFloat.zero] [PrimFloat.one] [PrimFloat.zero]
       (slit 0.5) (slit 1e-4) 40%Z (Some short_steps_only))))))
    PrimFloat.neg_zero 2%nat [slit 0.25] (slit (-0.0625)) eq_refl eq_refl _ _ _).
  - cbn. lia.
  - intros [|[|j]] Hj; [left; left; reflexivity | left; left; reflexivity | lia].
  - repeat split; reflexivity.
Defined.

(** ** Binary64: the outcome of the line search *)






(** With the factor 0.5 the first 1075 steps are in range: [0.5^k] is
    positive in binary64 up to [k = 1074]. *)
Lemma halving_steps_in_range (maxiter : Z) :
  (maxiter <= 1075)%Z -> steps_in_range (slit 0.5 : float) (Z.to_nat maxiter) = true.
Proof.
  intros Hle. apply (@steps_in_range_fewer float _ (slit 0.5) _ 1075%nat); [lia|].
  vm_compute. reflexivity.
Qed.



(** C1, as stated, fails on binary64 when the step underflows: with the
    factor 0.5 and [maxiter = 1200], from [x0 = -0.0] along [p = 1] with
    [g = -1], for the objective that is 5 at [-0.0], 1 at [+0.0] and 10
    elsewhere, every step [0.5^k > 0] is refused, the step [0.5^1075] is
    rounded to 0, and the trial at [x0 + 0 * p = +0.0] passes the test: the
    call returns the step 0, which is not in (0, 1], with a value that is
    not the one at the starting point. *)
Lemma lnsrch_armijo_outcome_counterexample :
  sltb (inner [slit (-1)] [PrimFloat.one]) szero = true /\
  signed_zero_objective [PrimFloat.neg_zero] = Ok (slit 5) /\
  sfinite (slit 5 : float) = true /\
  lnsrch_armijo signed_zero_objective [slit (-1)] [PrimFloat.one] [PrimFloat.neg_zero]
    (slit 0.5) (slit 1e-4) 1200 None
  = Ok ([PrimFloat.zero], PrimFloat.zero, PrimFloat.one) /\
  sltb szero PrimFloat.zero = false /\
  sltb PrimFloat.one (slit 5 : float) = true /\
  steps_in_range (slit 0.5 : float) (Z.to_nat 1200) = false.
Proof. repeat split; vm_compute; reflexivity. Qed.



(** * The iterates of the outer iteration *)





Section IterateFacts.
Context {R : Type} `{Scalar R}.
Variable norm : vec R -> R.
Variable lstsq : mat R -> vec R -> result (vec R * list R).
Variable f : vec R -> vec R.
Variable F : vec R -> mat R.
Variable tol tol_normdx : R.
Variable verbose : Z.
Variable trajectory : trajectory_t R.
Variable gnsolver : option (solver_t (R:=R)).



End IterateFacts.

(** ** Binary64: the residual norms along the iterates *)

Section IteratesBinary64.
Variable norm : vec float -> float.
Variable lstsq : mat float -> vec float -> result (vec float * list float).
Variable f : vec float -> vec float.
Variable F : vec float -> mat float.
Variable tol tol_normdx : float.
Variable verbose : Z.
Variable trajectory : trajectory_t float.
Variable gnsolver : option (solver_t (R:=float)).

Local Abbreviation nf x := (norm (f x)).




End IteratesBinary64.



(** C2, as stated, fails on binary64 for a residual norm that is a NaN:
    for [f(x) = x - 5] from [x0 = NaN], with a solver that returns the
    direction 5, the line search fails and returns the step 0 with the
    value NaN; the test [NaN >= NaN] is false, so the flag is not set and
    the loop is not left: the call with [maxiter = 7] searches seven times
    and returns with the code 2, not 3. *)
Lemma gn_iterate_monotone_counterexample :
  default_linesearch (objective float_norm shift_residual) [PrimFloat.nan] [slit 5]
    [PrimFloat.nan] default_trajectory
  = Ok ([PrimFloat.nan], PrimFloat.zero, PrimFloat.nan) /\
  sgeb PrimFloat.nan (float_norm (shift_residual [PrimFloat.nan])) = false /\
  snd (gn float_norm lstsq_1x1 shift_residual shift_jacobian [PrimFloat.nan]
         (slit 1e-5) (slit 1e-12) 7 None 0 None
         (Some (solver_with_values [PrimFloat.one])))
  = Ok ([PrimFloat.nan], 2%Z) /\
  count is_linesearch
    (fst (gn float_norm lstsq_1x1 shift_residual shift_jacobian [PrimFloat.nan]
            (slit 1e-5) (slit 1e-12) 7 None 0 None
            (Some (solver_with_values [PrimFloat.one]))))
  = 7%nat /\
  In (EvLineSearch [PrimFloat.nan] [slit 5] [PrimFloat.nan])
    (fst (gn float_norm lstsq_1x1 shift_residual shift_jacobian [PrimFloat.nan]
            (slit 1e-5) (slit 1e-12) 7 None 0 None
            (Some (solver_with_values [PrimFloat.one])))).
Proof.
  split; [vm_compute; reflexivity|].
  split; [vm_compute; reflexivity|].
  split; [vm_compute; reflexivity|].
  split; [vm_compute; reflexivity|].
  vm_compute. do 5 right. left. reflexivity.
Qed.

(** ** Binary64: the directions handed to the line search *)





Section DescentBinary64.
Variable norm : vec float -> float.
Variable lstsq : mat float -> vec float -> result (vec float * list float).
Variable f : vec float -> vec float.
Variable F : vec float -> mat float.
Variable tol tol_normdx : float.
Variable verbose : Z.
Variable trajectory : trajectory_t float.
Variable gnsolver : option (solver_t (R:=float)).
Hypothesis trajectory_BadStep : forall x d t, raises_only_BadStep (trajectory x d t).

End DescentBinary64.



(** C10, as stated, fails on binary64 for a direction with a NaN: with a
    solver that returns the direction NaN the descent test
    [inner(grad, dx) >= 0] is false, the direction is kept, and the line
    search is called with a direction for which [inner(grad, dx) <= 0] does
    not hold. *)
Lemma gn_never_raises_NotDescent_counterexample :
  In (EvLineSearch [slit (-5)] [PrimFloat.nan] [PrimFloat.zero])
     (fst (gn float_norm lstsq_1x1 shift_residual shift_jacobian [PrimFloat.zero]
             (slit 1e-5) (slit 1e-12) 100 None 0 None (Some nan_solver))) /\
  sleb (inner [slit (-5)] [PrimFloat.nan]) szero = false.
Proof.
  split; [|vm_compute; reflexivity].
  vm_compute. do 6 right. left. reflexivity.
Qed.

(** ** Further properties of a run *)



(** X9.  A direction solver that returns no singular value at the starting
    point makes a call with [maxiter > 0] raise the indexing error of
    [s[0] / s[-1]] in the first iteration, before any call of the line
    search. *)
Theorem gn_raises_IndexError {R : Type} `{Scalar R}
    (norm : vec R -> R) (lstsq : mat R -> vec R -> result (vec R * list R))
    (f : vec R -> vec R) (F : vec R -> mat R) (x0 : vec R) (tol tol_normdx : R)
    (maxiter : Z) (linesearch : option (linesearch_t (R:=R))) (verbose : Z)
    (trajectory : option (trajectory_t R)) (gnsolver : option (solver_t (R:=R)))
    (dx : vec R) :
  (0 < maxiter)%Z ->
  solve_direction lstsq gnsolver (F x0) (f x0) = Ok (dx, []) ->
  snd (gn norm lstsq f F x0 tol tol_normdx maxiter linesearch verbose trajectory
         gnsolver) = Raise IndexError /\
  count is_linesearch
    (fst (gn norm lstsq f F x0 tol tol_normdx maxiter linesearch verbose trajectory
            gnsolver)) = 0%nat.
Proof.
  intros Hpos Hs. rewrite gn_fst, gn_snd by assumption. unfold gn_run.
  rewrite gn_loop_eq, fst_bind, snd_bind, gn_body_eq, Hs, gn_step_eq.
  cbn [cond_of fst snd]. split; [reflexivity|]. destruct (all_finite dx); reflexivity.
Qed.

Lemma gn_raises_IndexError_witness :
  snd (gn float_norm lstsq_1x1 shift_residual shift_jacobian [PrimFloat.zero]
         (slit 1e-5) (slit 1e-12) 100 None 0 None (Some solver_without_values))
  = Raise IndexError /\
  count is_linesearch
    (fst (gn float_norm lstsq_1x1 shift_residual shift_jacobian [PrimFloat.zero]
            (slit 1e-5) (slit 1e-12) 100 None 0 None (Some solver_without_values)))
  = 0%nat.
Proof.
  apply (@gn_raises_IndexError float _ float_norm lstsq_1x1 shift_residual
           shift_jacobian [PrimFloat.zero] (slit 1e-5) (slit 1e-12) 100%Z None 0%Z
           None (Some solver_without_values) [slit 5]).
  - reflexivity.
  - reflexivity.
Defined.
